(** * deej-with-buttons: the serial protocol engine (pkg/deej/serial.go)

    A shallow embedding of the line grammar, the slider and button
    trackers, the button action trigger and the configuration-reload
    handler of [SerialIO], with the properties of the specification
    stated over it.

    Conventions.
    - Go [int] and [uint] are [Z]; conversions write their wrap-around out.
    - Go strings are byte strings: [string] (a list of [ascii]).
    - A Go [float32] scalar is an exact rational [Q] kept in lowest terms.
      Every scalar the tracker stores is either the literal [-1.0] or a
      multiple of 1/100, and no property below depends on rounding error.
    - A slice is a [list]; an index outside it panics, as in Go.
    - Logging is not modelled; a goroutine body is modelled as the
      sequential function it runs. *)

From Stdlib Require Import ZArith QArith Qround Qabs Ascii String List Bool Lia Lqa
  Sorted.
From stdpp Require Import base option list gmap strings.

Local Open Scope Z_scope.

(** ** The Go standard library functions the source calls *)

Module strings.

(** [strings.TrimSuffix(s, suffix)]: [s] without the trailing [suffix],
    or [s] itself when it does not end with it. *)
Fixpoint cutSuffix (s suffix : string) : option string :=
  if String.eqb s suffix then Some EmptyString
  else match s with
       | EmptyString => None
       | String c s' => String c <$> cutSuffix s' suffix
       end.

Definition TrimSuffix (s suffix : string) : string :=
  default s (cutSuffix s suffix).

Fixpoint inCutset (c : ascii) (cutset : string) : bool :=
  match cutset with
  | EmptyString => false
  | String d rest => Ascii.eqb c d || inCutset c rest
  end.

Fixpoint TrimLeft (s cutset : string) : string :=
  match s with
  | EmptyString => EmptyString
  | String c s' => if inCutset c cutset then TrimLeft s' cutset else s
  end.

Fixpoint TrimRight (s cutset : string) : string :=
  match s with
  | EmptyString => EmptyString
  | String c s' =>
      match TrimRight s' cutset with
      | EmptyString => if inCutset c cutset then EmptyString
                       else String c EmptyString
      | r => String c r
      end
  end.

(** [strings.Trim(s, cutset)] for a cutset of single-byte characters. *)
Definition Trim (s cutset : string) : string :=
  TrimRight (TrimLeft s cutset) cutset.

(** [strings.Split(s, sep)] for a non-empty [sep]: the pieces between the
    leftmost non-overlapping occurrences of [sep]; never an empty slice.
    [skip] counts the bytes of a separator still to be passed over. *)
Fixpoint splitFrom (sep : string) (skip : nat) (s : string) : list string :=
  match s with
  | EmptyString => [EmptyString]
  | String c s' =>
      match skip with
      | S k => splitFrom sep k s'
      | O =>
          if String.prefix sep s
          then EmptyString :: splitFrom sep (String.length sep - 1) s'
          else match splitFrom sep 0 s' with
               | piece :: rest => String c piece :: rest
               | [] => [String c EmptyString]
               end
      end
  end.

Definition Split (s sep : string) : list string := splitFrom sep 0 s.

End strings.

Module strconv.

Inductive NumError := ErrSyntax | ErrRange.

Definition maxInt : Z := 2 ^ 63 - 1.
Definition minInt : Z := - 2 ^ 63.

Definition digitVal (c : ascii) : option Z :=
  let n := Z.of_nat (nat_of_ascii c) in
  if (48 <=? n) && (n <=? 57) then Some (n - 48) else None.

Fixpoint parseDigits (s : string) (acc : Z) : option Z :=
  match s with
  | EmptyString => Some acc
  | String c s' =>
      match digitVal c with
      | Some d => parseDigits s' (acc * 10 + d)
      | None => None
      end
  end.

(** [strconv.Atoi(s)]: an optional sign and decimal digits. A syntax error
    gives 0, a value outside [int] gives the nearest bound; both with an
    error, which every caller in serial.go drops. *)
Definition Atoi (s : string) : Z * option NumError :=
  let '(neg, body) :=
    match s with
    | String "-" rest => (true, rest)
    | String "+" rest => (false, rest)
    | _ => (false, s)
    end in
  match body with
  | EmptyString => (0, Some ErrSyntax)
  | _ =>
      match parseDigits body 0 with
      | None => (0, Some ErrSyntax)
      | Some v =>
          let n := if neg then - v else v in
          if n <? minInt then (minInt, Some ErrRange)
          else if maxInt <? n then (maxInt, Some ErrRange)
          else (n, None)
      end
  end.

End strconv.

(** ** Regular expressions (package regexp), as far as the two patterns go *)

Module regexp.

Inductive Regexp :=
| NoMatch
| EmptyMatch
| Literal (c : ascii)
| Digit                                 (* \d : the ASCII class [0-9] *)
| Concat (r1 r2 : Regexp)
| Alternate (r1 r2 : Regexp)
| Star (r : Regexp).

Definition isDigit (c : ascii) : bool :=
  let n := nat_of_ascii c in (48 <=? n)%nat && (n <=? 57)%nat.

Definition Quest (r : Regexp) : Regexp := Alternate EmptyMatch r.

(** [r{1,n+1}] *)
Fixpoint Repeat1 (n : nat) (r : Regexp) : Regexp :=
  match n with
  | O => r
  | S k => Concat r (Quest (Repeat1 k r))
  end.

Fixpoint nullable (r : Regexp) : bool :=
  match r with
  | NoMatch => false
  | EmptyMatch => true
  | Literal _ => false
  | Digit => false
  | Concat r1 r2 => nullable r1 && nullable r2
  | Alternate r1 r2 => nullable r1 || nullable r2
  | Star _ => true
  end.

Fixpoint deriv (c : ascii) (r : Regexp) : Regexp :=
  match r with
  | NoMatch => NoMatch
  | EmptyMatch => NoMatch
  | Literal d => if Ascii.eqb c d then EmptyMatch else NoMatch
  | Digit => if isDigit c then EmptyMatch else NoMatch
  | Concat r1 r2 =>
      if nullable r1
      then Alternate (Concat (deriv c r1) r2) (deriv c r2)
      else Concat (deriv c r1) r2
  | Alternate r1 r2 => Alternate (deriv c r1) (deriv c r2)
  | Star r1 => Concat (deriv c r1) (Star r1)
  end.

(** [MatchString] of the pattern [^r$]: the whole text is in the language
    of [r] (without the [m] flag, [^] and [$] match only at the two ends
    of the text). *)
Fixpoint MatchString (r : Regexp) (s : string) : bool :=
  match s with
  | EmptyString => nullable r
  | String c s' => MatchString (deriv c r) s'
  end.

(** The language of a pattern. *)
Inductive Lang : Regexp -> string -> Prop :=
| LEmpty : Lang EmptyMatch EmptyString
| LLiteral c : Lang (Literal c) (String c EmptyString)
| LDigit c : isDigit c = true -> Lang Digit (String c EmptyString)
| LConcat r1 r2 s1 s2 :
    Lang r1 s1 -> Lang r2 s2 -> Lang (Concat r1 r2) (s1 +:+ s2)
| LAltL r1 r2 s : Lang r1 s -> Lang (Alternate r1 r2) s
| LAltR r1 r2 s : Lang r2 s -> Lang (Alternate r1 r2) s
| LStarNil r : Lang (Star r) EmptyString
| LStarCons r s1 s2 :
    Lang r s1 -> Lang (Star r) s2 -> Lang (Star r) (s1 +:+ s2).

End regexp.

Import strings strconv regexp.

(** ** External collaborators, at their boundary *)

(** [github.com/micmonay/keybd_event]: the virtual keys serial.go names (their
    numeric codes are the platform's), the key bonding it fills in, and the
    two calls that can fail. *)
Module keybd_event.

Inductive VK :=
| VK_F5 | VK_K
| VK_MEDIA_NEXT_TRACK | VK_MEDIA_PREV_TRACK | VK_MEDIA_STOP
| VK_MEDIA_PLAY_PAUSE | VK_LAUNCH_MEDIA_SELECT
| VK_VOLUME_MUTE | VK_VOLUME_DOWN | VK_VOLUME_UP
| VK_BROWSER_BACK | VK_BROWSER_FORWARD | VK_BROWSER_REFRESH
| VK_BROWSER_STOP | VK_BROWSER_SEARCH | VK_BROWSER_FAVORITES
| VK_BROWSER_HOME.

Record KeyBonding := {
  keys : list VK;
  hasCTRL : bool;
  hasSuper : bool;
  hasALTGR : bool;
}.

Definition SetKeys (kb : KeyBonding) (ks : list VK) : KeyBonding :=
  {| keys := ks; hasCTRL := hasCTRL kb;
     hasSuper := hasSuper kb; hasALTGR := hasALTGR kb |}.
Definition HasCTRL (kb : KeyBonding) (b : bool) : KeyBonding :=
  {| keys := keys kb; hasCTRL := b;
     hasSuper := hasSuper kb; hasALTGR := hasALTGR kb |}.
Definition HasSuper (kb : KeyBonding) (b : bool) : KeyBonding :=
  {| keys := keys kb; hasCTRL := hasCTRL kb;
     hasSuper := b; hasALTGR := hasALTGR kb |}.
Definition HasALTGR (kb : KeyBonding) (b : bool) : KeyBonding :=
  {| keys := keys kb; hasCTRL := hasCTRL kb;
     hasSuper := hasSuper kb; hasALTGR := b |}.

(** What the host does when asked: [NewKeyBonding] returns the zero bonding
    and [initError]; [Launching] returns [launchError] of the bonding. *)
Record Driver := {
  initError : option string;
  launchError : KeyBonding -> option string;
}.

Definition NewKeyBonding (drv : Driver) : KeyBonding * option string :=
  ({| keys := []; hasCTRL := false; hasSuper := false; hasALTGR := false |},
   initError drv).

Definition Launching (drv : Driver) (kb : KeyBonding) : option string :=
  launchError drv kb.

End keybd_event.

(** [github.com/jacobsa/go-serial/serial] *)
Module serial.

Record OpenOptions := {
  PortName : string;
  BaudRate : Z;            (* uint *)
  DataBits : Z;
  StopBits : Z;
  MinimumReadSize : Z;
}.

Definition zero : OpenOptions :=
  {| PortName := ""; BaudRate := 0; DataBits := 0; StopBits := 0;
     MinimumReadSize := 0 |}.

End serial.

(** Modelled from the spec: config.go is missing; the noise reduction level
    is enumerated {low, default, high}. *)
Inductive NoiseReduction := NoiseLow | NoiseDefault | NoiseHigh.

(** Modelled from the spec: config.go is missing; the configuration snapshot
    with the fields serial.go reads from [sio.deej.config], the button
    mapping being the [m] of buttonMap (a [map[int][]string]). *)

Module config.

Record connectionInfo := {
  COMPort : string;
  BaudRate : Z;            (* int *)
}.

Record CanonicalConfig := {
  ConnectionInfo : connectionInfo;
  InvertSliders : bool;
  NoiseReductionLevel : NoiseReduction;
  ButtonMapping : gmap Z (list string);      (* ButtonMapping.m *)
}.

End config.

(** The host: the platform and what opening the port answers. *)
Record Host := {
  Linux : bool;
  Open : serial.OpenOptions -> option string;
}.

(** [uint(x)] of an [int] on a 64-bit platform. *)
Definition uint (x : Z) : Z := x mod 2 ^ 64.

(** ** serial.go *)

Record SliderMoveEvent := {
  SliderID : Z;
  PercentValue : Q;
}.

Record ButtonPressEvent := {
  ButtonID : Z;
  PreviousValue : Z;
  ButtonValue : Z;
}.

Record SerialIO := {
  connected : bool;
  connOptions : serial.OpenOptions;
  lastKnownNumSliders : Z;
  currentSliderPercentValues : list Q;
  lastKnownNumButtons : Z;
  currentButtonValues : list Z;
  sliderMoveConsumers : nat;        (* how many channels are subscribed *)
}.

(** [^\d{1,4}(\|\d{1,4})*\r\n$] *)
Definition expectedLinePattern : Regexp :=
  Concat (Repeat1 3 Digit)
    (Concat (Star (Concat (Literal "|") (Repeat1 3 Digit)))
       (Concat (Literal "013") (Literal "010"))).

(** [^~\d(\~\d)*~\r\n$] *)
Definition buttonLinePattern : Regexp :=
  Concat (Literal "~")
    (Concat Digit
       (Concat (Star (Concat (Literal "~") Digit))
          (Concat (Literal "~")
             (Concat (Literal "013") (Literal "010"))))).

Definition CRLF : string := String "013" (String "010" EmptyString).

Definition NewSerialIO : SerialIO :=
  {| connected := false;
     connOptions := serial.zero;
     lastKnownNumSliders := 0;
     currentSliderPercentValues := [];
     lastKnownNumButtons := 0;
     currentButtonValues := [];
     sliderMoveConsumers := 0 |}.

Definition SubscribeToSliderMoveEvents (sio : SerialIO) : SerialIO * nat :=
  ({| connected := connected sio;
      connOptions := connOptions sio;
      lastKnownNumSliders := lastKnownNumSliders sio;
      currentSliderPercentValues := currentSliderPercentValues sio;
      lastKnownNumButtons := lastKnownNumButtons sio;
      currentButtonValues := currentButtonValues sio;
      sliderMoveConsumers := S (sliderMoveConsumers sio) |},
   sliderMoveConsumers sio).

(** A run-time panic: one raised by [panic(err)], or an index outside a
    slice. Nothing in the package recovers from either. *)
Inductive Panic :=
| PanicErr (err : string)
| IndexOutOfRange (index length : nat).

Inductive Exit :=
| Returned
| Panicked (p : Panic).

(** *** Connection lifecycle *)

Definition withConnection (sio : SerialIO) (c : bool)
    (opts : serial.OpenOptions) : SerialIO :=
  {| connected := c;
     connOptions := opts;
     lastKnownNumSliders := lastKnownNumSliders sio;
     currentSliderPercentValues := currentSliderPercentValues sio;
     lastKnownNumButtons := lastKnownNumButtons sio;
     currentButtonValues := currentButtonValues sio;
     sliderMoveConsumers := sliderMoveConsumers sio |}.

(** [Start]: refuses a second connection; otherwise records the options it
    is about to use and opens the port. *)
Definition Start (host : Host) (cfg : config.CanonicalConfig)
    (sio : SerialIO) : SerialIO * option string :=
  if connected sio then (sio, Some "serial: connection already active")
  else
    let minimumReadSize := if Linux host then 1 else 0 in
    let opts :=
      {| serial.PortName := config.COMPort (config.ConnectionInfo cfg);
         serial.BaudRate := uint (config.BaudRate (config.ConnectionInfo cfg));
         serial.DataBits := 8;
         serial.StopBits := 1;
         serial.MinimumReadSize := uint minimumReadSize |} in
    match Open host opts with
    | Some err => (withConnection sio false opts, Some err)
    | None => (withConnection sio true opts, None)
    end.

(** [close], run by the dispatcher when it receives the stop signal. *)
Definition close (sio : SerialIO) : SerialIO :=
  withConnection sio false (connOptions sio).

(** [Stop]: hands the stop signal to the dispatcher if connected. *)
Definition Stop (sio : SerialIO) : SerialIO :=
  if connected sio then close sio else sio.

Inductive ConnCall := CallStop | CallStart.

(** The comparison of [setupOnConfigReload], lines 184-185. *)
Definition connectionParamsChanged (cfg : config.CanonicalConfig)
    (sio : SerialIO) : bool :=
  negb (String.eqb (config.COMPort (config.ConnectionInfo cfg))
          (serial.PortName (connOptions sio)))
  || negb (uint (config.BaudRate (config.ConnectionInfo cfg))
           =? serial.BaudRate (connOptions sio)).

(** The delayed goroutine of a reload: both channel counts forgotten. *)
Definition forgetChannelCounts (sio : SerialIO) : SerialIO :=
  {| connected := connected sio;
     connOptions := connOptions sio;
     lastKnownNumSliders := 0;
     currentSliderPercentValues := currentSliderPercentValues sio;
     lastKnownNumButtons := 0;
     currentButtonValues := currentButtonValues sio;
     sliderMoveConsumers := sliderMoveConsumers sio |}.

Record ReloadResult := {
  reload_sio : SerialIO;
  reload_calls : list ConnCall;      (* Stop and Start calls, in order *)
  reload_error : option string;      (* what the renewing Start answered *)
}.

(** One "configuration changed" notification, handled to its end: the
    connection is renewed if its parameters changed, and the delayed reset
    has fired. [cfg] is the configuration now in [sio.deej.config]. *)
Definition onConfigReloaded (host : Host) (cfg : config.CanonicalConfig)
    (sio : SerialIO) : ReloadResult :=
  if connectionParamsChanged cfg sio then
    let stopped := Stop sio in
    let '(started, err) := Start host cfg stopped in
    {| reload_sio := forgetChannelCounts started;
       reload_calls := [CallStop; CallStart];
       reload_error := err |}
  else
    {| reload_sio := forgetChannelCounts sio;
       reload_calls := [];
       reload_error := None |}.

(** *** The button action trigger *)

Definition KEY_MAPS : list (string * keybd_event.VK) :=
  [ ("VK_MEDIA_NEXT_TRACK", keybd_event.VK_MEDIA_NEXT_TRACK);
    ("VK_MEDIA_PREV_TRACK", keybd_event.VK_MEDIA_PREV_TRACK);
    ("VK_MEDIA_STOP", keybd_event.VK_MEDIA_STOP);
    ("VK_MEDIA_PLAY_PAUSE", keybd_event.VK_MEDIA_PLAY_PAUSE);
    ("VK_LAUNCH_MEDIA_SELECT", keybd_event.VK_LAUNCH_MEDIA_SELECT);
    ("VK_VOLUME_MUTE", keybd_event.VK_VOLUME_MUTE);
    ("VK_VOLUME_DOWN", keybd_event.VK_VOLUME_DOWN);
    ("VK_VOLUME_UP", keybd_event.VK_VOLUME_UP);
    ("VK_BROWSER_BACK", keybd_event.VK_BROWSER_BACK);
    ("VK_BROWSER_FORWARD", keybd_event.VK_BROWSER_FORWARD);
    ("VK_BROWSER_REFRESH", keybd_event.VK_BROWSER_REFRESH);
    ("VK_BROWSER_STOP", keybd_event.VK_BROWSER_STOP);
    ("VK_BROWSER_SEARCH", keybd_event.VK_BROWSER_SEARCH);
    ("VK_BROWSER_FAVORITES", keybd_event.VK_BROWSER_FAVORITES);
    ("VK_BROWSER_HOME", keybd_event.VK_BROWSER_HOME) ].

Fixpoint mapIndex {V} (m : list (string * V)) (key : string) : option V :=
  match m with
  | [] => None
  | (k, v) :: rest => if String.eqb k key then Some v else mapIndex rest key
  end.

Definition kbKeySimple (kb : keybd_event.KeyBonding) (key : string)
    : keybd_event.KeyBonding * option string :=
  match mapIndex KEY_MAPS key with
  | None => (kb, Some "Key not found")
  | Some key_data => (keybd_event.SetKeys kb [key_data], None)
  end.

(** The body of the [range] loop of [pressedButton]: the bonding after the
    token, and the error it logs, if any. *)
Definition applyToken (kb : keybd_event.KeyBonding) (conf_key : string)
    : keybd_event.KeyBonding * option string :=
  if String.eqb conf_key "FORCE_REFRESH" then
    (keybd_event.HasCTRL
       (keybd_event.SetKeys kb [keybd_event.VK_F5]) true, None)
  else if String.eqb conf_key "WIN_MIC_MUTE_TOGGLE" then
    (keybd_event.HasALTGR
       (keybd_event.HasSuper
          (keybd_event.SetKeys kb [keybd_event.VK_K]) true) true, None)
  else kbKeySimple kb conf_key.

Fixpoint applyTokens (conf_ind : nat) (tokens : list string)
    (kb : keybd_event.KeyBonding)
    : keybd_event.KeyBonding * list (nat * string) :=
  match tokens with
  | [] => (kb, [])
  | conf_key :: rest =>
      let '(kb1, key_err) := applyToken kb conf_key in
      let '(kb2, invalid) := applyTokens (S conf_ind) rest kb1 in
      (kb2, match key_err with
            | Some _ => (conf_ind, conf_key) :: invalid
            | None => invalid
            end)
  end.

Record PressResult := {
  press_launched : option keybd_event.KeyBonding;  (* what Launching was given *)
  press_invalid : list (nat * string);             (* tokens logged as invalid *)
  press_exit : Exit;
}.

Definition pressedButton (drv : keybd_event.Driver)
    (cfg : config.CanonicalConfig) (buttonEvent : ButtonPressEvent)
    : PressResult :=
  let bindex := ButtonID buttonEvent in
  let '(kb, err) := keybd_event.NewKeyBonding drv in
  match err with
  | Some e =>
      {| press_launched := None; press_invalid := [];
         press_exit := Panicked (PanicErr e) |}
  | None =>
      let '(kb', invalid) :=
        applyTokens 0 (default [] (config.ButtonMapping cfg !! bindex)) kb in
      match keybd_event.Launching drv kb' with
      | Some e =>
          {| press_launched := Some kb'; press_invalid := invalid;
             press_exit := Panicked (PanicErr e) |}
      | None =>
          {| press_launched := Some kb'; press_invalid := invalid;
             press_exit := Returned |}
      end
  end.

(** *** The trackers *)

Record Outcome := {
  out_sio : SerialIO;
  out_moveEvents : list SliderMoveEvent;        (* the frame's moveEvents *)
  out_sent : list (nat * SliderMoveEvent);      (* consumer <- moveEvent *)
  out_buttonEvents : list ButtonPressEvent;     (* the frame's moveEvents *)
  out_pressed : list ButtonPressEvent;          (* pressedButton calls *)
  out_launched : list keybd_event.KeyBonding;   (* Launching calls *)
  out_exit : Exit;
}.

(** How a [for ... range] body left the loop. *)
Inductive LoopExit :=
| LoopDone
| LoopReturn                 (* the [return] of the first-value guard *)
| LoopPanic (p : Panic).

Definition withButtons (sio : SerialIO) (n : Z) (values : list Z) : SerialIO :=
  {| connected := connected sio;
     connOptions := connOptions sio;
     lastKnownNumSliders := lastKnownNumSliders sio;
     currentSliderPercentValues := currentSliderPercentValues sio;
     lastKnownNumButtons := n;
     currentButtonValues := values;
     sliderMoveConsumers := sliderMoveConsumers sio |}.

Definition withSliders (sio : SerialIO) (n : Z) (values : list Q) : SerialIO :=
  {| connected := connected sio;
     connOptions := connOptions sio;
     lastKnownNumSliders := n;
     currentSliderPercentValues := values;
     lastKnownNumButtons := lastKnownNumButtons sio;
     currentButtonValues := currentButtonValues sio;
     sliderMoveConsumers := sliderMoveConsumers sio |}.

(** Lines 325-332: the fields of a button line. *)
Definition buttonFields (line : string) : list string :=
  let line := TrimSuffix line CRLF in
  let line := TrimSuffix line "~" in
  let line := Trim line "~" in
  Split line "~".

(** Lines 341-350: a new channel count resets every stored value to -1. *)
Definition buttonCountRule (numSliders : nat) (sio : SerialIO) : SerialIO :=
  if negb (Z.of_nat numSliders =? lastKnownNumButtons sio)
  then withButtons sio (Z.of_nat numSliders) (replicate numSliders (-1))
  else sio.

(** Lines 354-388. *)
Fixpoint buttonLoop (sliderIdx : nat) (splitLine : list string)
    (values : list Z) (moveEvents : list ButtonPressEvent)
    : list Z * list ButtonPressEvent * LoopExit :=
  match splitLine with
  | [] => (values, moveEvents, LoopDone)
  | stringValue :: rest =>
      let number := fst (Atoi stringValue) in
      if (sliderIdx =? 0)%nat && (9 <? number) then
        (values, moveEvents, LoopReturn)
      else
        match values !! sliderIdx with
        | None =>
            (values, moveEvents,
             LoopPanic (IndexOutOfRange sliderIdx (length values)))
        | Some previous =>
            if negb (previous =? number) then
              buttonLoop (S sliderIdx) rest (<[sliderIdx := number]> values)
                (moveEvents ++
                   [{| ButtonID := Z.of_nat sliderIdx;
                       PreviousValue := previous;
                       ButtonValue := number |}])
            else buttonLoop (S sliderIdx) rest values moveEvents
        end
  end.

(** Lines 390-394: the rising edges, each handed to [pressedButton]; a panic
    of [pressedButton] ends the loop. *)
Fixpoint pressLoop (drv : keybd_event.Driver) (cfg : config.CanonicalConfig)
    (moveEvents : list ButtonPressEvent)
    : list ButtonPressEvent * list keybd_event.KeyBonding * Exit :=
  match moveEvents with
  | [] => ([], [], Returned)
  | moveEvent :: rest =>
      if (PreviousValue moveEvent =? 0) && negb (ButtonValue moveEvent =? 0)
      then
        let r := pressedButton drv cfg moveEvent in
        let launched := option_list (press_launched r) in
        match press_exit r with
        | Panicked p => ([moveEvent], launched, Panicked p)
        | Returned =>
            let '(pressed, launched', e) := pressLoop drv cfg rest in
            (moveEvent :: pressed, launched ++ launched', e)
        end
      else pressLoop drv cfg rest
  end.

Definition handleButtons (drv : keybd_event.Driver)
    (cfg : config.CanonicalConfig) (sio : SerialIO) (line : string)
    : Outcome :=
  let splitLine := buttonFields line in
  let numSliders := length splitLine in
  let sio := buttonCountRule numSliders sio in
  let '(values, moveEvents, e) :=
    buttonLoop 0 splitLine (currentButtonValues sio) [] in
  let sio := withButtons sio (lastKnownNumButtons sio) values in
  match e with
  | LoopReturn =>
      {| out_sio := sio; out_moveEvents := []; out_sent := [];
         out_buttonEvents := moveEvents; out_pressed := [];
         out_launched := []; out_exit := Returned |}
  | LoopPanic p =>
      {| out_sio := sio; out_moveEvents := []; out_sent := [];
         out_buttonEvents := moveEvents; out_pressed := [];
         out_launched := []; out_exit := Panicked p |}
  | LoopDone =>
      let '(pressed, launched, e') := pressLoop drv cfg moveEvents in
      {| out_sio := sio; out_moveEvents := []; out_sent := [];
         out_buttonEvents := moveEvents; out_pressed := pressed;
         out_launched := launched; out_exit := e' |}
  end.

(** Package util (pkg/deej/util) is not among the sources. *)
Module util.
Section Thresholds.

(** The epsilon each noise reduction level is bound to: the table is
    missing with the package, and is a parameter. *)
Variable significantDifferenceThreshold : NoiseReduction -> Q.

(** Modelled from the spec: [util.NormalizeScalar] is missing; the spec
    has the raw reading divided by 1023 (by the caller), clamped to
    [0, 1] and rounded to two-decimal precision. *)
Definition NormalizeScalar (v : Q) : Q :=
  let clamped :=
    if Qle_bool v 0 then 0%Q else if Qle_bool 1 v then 1%Q else v in
  Qred (Qmake (Qfloor (clamped * 100 + (1 # 2))%Q) 100).

(** Modelled from the spec: [util.SignificantlyDifferent] is missing; the
    spec has a new scalar count as a change when it differs from the
    last-emitted value by more than the threshold of the level. *)
Definition SignificantlyDifferent (old new : Q)
    (noiseReductionLevel : NoiseReduction) : bool :=
  negb (Qle_bool (Qabs (old - new))
          (significantDifferenceThreshold noiseReductionLevel)).

End Thresholds.
End util.

Section Engine.

Variable significantDifferenceThreshold : NoiseReduction -> Q.

Definition unset : Q := (-1)%Q.

(** Lines 424-427: the fields of a slider line. *)
Definition sliderFields (line : string) : list string :=
  Split (TrimSuffix line CRLF) "|".

(** Lines 431-440: a new channel count resets every stored value to -1.0. *)
Definition sliderCountRule (numSliders : nat) (sio : SerialIO) : SerialIO :=
  if negb (Z.of_nat numSliders =? lastKnownNumSliders sio)
  then withSliders sio (Z.of_nat numSliders) (replicate numSliders unset)
  else sio.

(** Lines 456-465: from the parsed number to the scalar compared. *)
Definition normalizedScalar (cfg : config.CanonicalConfig) (number : Z) : Q :=
  let dirtyFloat := (inject_Z number / 1023)%Q in
  let normalizedScalar := util.NormalizeScalar dirtyFloat in
  if config.InvertSliders cfg then Qred (1 - normalizedScalar)
  else normalizedScalar.

(** Lines 444-482. *)
Fixpoint sliderLoop (cfg : config.CanonicalConfig) (sliderIdx : nat)
    (splitLine : list string) (values : list Q)
    (moveEvents : list SliderMoveEvent)
    : list Q * list SliderMoveEvent * LoopExit :=
  match splitLine with
  | [] => (values, moveEvents, LoopDone)
  | stringValue :: rest =>
      let number := fst (Atoi stringValue) in
      if (sliderIdx =? 0)%nat && (1023 <? number) then
        (values, moveEvents, LoopReturn)
      else
        let scalar := normalizedScalar cfg number in
        match values !! sliderIdx with
        | None =>
            (values, moveEvents,
             LoopPanic (IndexOutOfRange sliderIdx (length values)))
        | Some current =>
            if util.SignificantlyDifferent significantDifferenceThreshold
                 current scalar (config.NoiseReductionLevel cfg)
            then
              sliderLoop cfg (S sliderIdx) rest
                (<[sliderIdx := scalar]> values)
                (moveEvents ++
                   [{| SliderID := Z.of_nat sliderIdx;
                       PercentValue := scalar |}])
            else sliderLoop cfg (S sliderIdx) rest values moveEvents
        end
  end.

(** Lines 485-491: every consumer is sent every event of the frame. *)
Definition deliver (consumers : nat) (moveEvents : list SliderMoveEvent)
    : list (nat * SliderMoveEvent) :=
  flat_map (fun consumer => map (pair consumer) moveEvents)
    (seq 0 consumers).

Definition unchanged (sio : SerialIO) : Outcome :=
  {| out_sio := sio; out_moveEvents := []; out_sent := [];
     out_buttonEvents := []; out_pressed := []; out_launched := [];
     out_exit := Returned |}.

Definition handleLine (drv : keybd_event.Driver)
    (cfg : config.CanonicalConfig) (sio : SerialIO) (line : string)
    : Outcome :=
  if MatchString buttonLinePattern line then handleButtons drv cfg sio line
  else if negb (MatchString expectedLinePattern line) then unchanged sio
  else
    let splitLine := sliderFields line in
    let numSliders := length splitLine in
    let sio := sliderCountRule numSliders sio in
    let '(values, moveEvents, e) :=
      sliderLoop cfg 0 splitLine (currentSliderPercentValues sio) [] in
    let sio := withSliders sio (lastKnownNumSliders sio) values in
    match e with
    | LoopReturn =>
        {| out_sio := sio; out_moveEvents := moveEvents; out_sent := [];
           out_buttonEvents := []; out_pressed := []; out_launched := [];
           out_exit := Returned |}
    | LoopPanic p =>
        {| out_sio := sio; out_moveEvents := moveEvents; out_sent := [];
           out_buttonEvents := []; out_pressed := []; out_launched := [];
           out_exit := Panicked p |}
    | LoopDone =>
        {| out_sio := sio; out_moveEvents := moveEvents;
           out_sent := deliver (sliderMoveConsumers sio) moveEvents;
           out_buttonEvents := []; out_pressed := []; out_launched := [];
           out_exit := Returned |}
    end.

(** The dispatcher of [Start], lines 130-137, fed the lines the reader
    delivers: each goes to [handleLine]; a panic ends the goroutine, and
    with it the process, before the lines that follow. *)
Fixpoint readLoop (drv : keybd_event.Driver) (cfg : config.CanonicalConfig)
    (sio : SerialIO) (lines : list string) : SerialIO * list Outcome * Exit :=
  match lines with
  | [] => (sio, [], Returned)
  | line :: rest =>
      let r := handleLine drv cfg sio line in
      match out_exit r with
      | Panicked p => (out_sio r, [r], Panicked p)
      | Returned =>
          let '(sio', outs, e) := readLoop drv cfg (out_sio r) rest in
          (sio', r :: outs, e)
      end
  end.

End Engine.


(** ** Examples of the collaborators, used to instantiate the statements *)

Definition lineOf (s : string) : string := s +:+ CRLF.

Definition exampleThreshold (l : NoiseReduction) : Q :=
  match l with
  | NoiseLow => 15 # 1000
  | NoiseDefault => 25 # 1000
  | NoiseHigh => 35 # 1000
  end.

Definition exampleConfig : config.CanonicalConfig :=
  {| config.ConnectionInfo :=
       {| config.COMPort := "COM6"; config.BaudRate := 9600 |};
     config.InvertSliders := false;
     config.NoiseReductionLevel := NoiseDefault;
     config.ButtonMapping :=
       {[ 0 := ["VK_MEDIA_PLAY_PAUSE"]; 1 := ["VK_MEDIA_NEXT_TRACK"];
          2 := ["WIN_MIC_MUTE_TOGGLE"]; 3 := ["FORCE_REFRESH"; "NO_SUCH_KEY"] ]} |}.

Definition workingDriver : keybd_event.Driver :=
  {| keybd_event.initError := None;
     keybd_event.launchError := fun _ => None |}.

Definition noInitDriver : keybd_event.Driver :=
  {| keybd_event.initError := Some "permission denied";
     keybd_event.launchError := fun _ => None |}.

Definition noLaunchDriver : keybd_event.Driver :=
  {| keybd_event.initError := None;
     keybd_event.launchError := fun _ => Some "write failed" |}.

Definition exampleHost : Host :=
  {| Linux := false; Open := fun _ => None |}.

(** ** Vocabulary of the statements *)

(** [~d1~d2...~dn], the repeated group of the button pattern. *)
Fixpoint tildes (ds : list ascii) : string :=
  match ds with
  | [] => EmptyString
  | d :: rest => String "~" (String d (tildes rest))
  end.

(** The button line [~d~d1~...~dn~] with its CRLF trailer. *)
Definition buttonLineOf (d : ascii) (ds : list ascii) : string :=
  String "~" (String d (tildes ds +:+ String "~" CRLF)).

Definition single (d : ascii) : string := String d EmptyString.

(** The integers a frame carries: every field through [strconv.Atoi]. *)
Definition numbersOf (fields : list string) : list Z :=
  map (fun stringValue => fst (Atoi stringValue)) fields.

(** The test of line 391. *)
Definition risingEdge (moveEvent : ButtonPressEvent) : bool :=
  (PreviousValue moveEvent =? 0) && negb (ButtonValue moveEvent =? 0).

(** The events of a button frame, channel by channel: one for each channel
    whose stored value differs from the new one. *)
Fixpoint edgesFrom (sliderIdx : nat) (stored new : list Z)
    : list ButtonPressEvent :=
  match stored, new with
  | previous :: stored', number :: new' =>
      (if previous =? number then []
       else [{| ButtonID := Z.of_nat sliderIdx;
                PreviousValue := previous;
                ButtonValue := number |}])
      ++ edgesFrom (S sliderIdx) stored' new'
  | _, _ => []
  end.

(** The [pressedButton] calls of an outcome that concern one channel. *)
Definition callsFor (channel : nat) (r : Outcome) : list ButtonPressEvent :=
  filter (fun e => ButtonID e = Z.of_nat channel) (out_pressed r).

(** The key-input collaborator fails neither to initialise nor to launch. *)
Definition driverWorks (drv : keybd_event.Driver) : Prop :=
  keybd_event.initError drv = None /\
  forall kb, keybd_event.launchError drv kb = None.

(** The remembered button count is either forgotten or the length of the
    stored values: what [NewSerialIO], [handleButtons] and a reload leave. *)
Definition buttonsTracked (sio : SerialIO) : Prop :=
  lastKnownNumButtons sio = 0 \/
  lastKnownNumButtons sio = Z.of_nat (length (currentButtonValues sio)).

(** The events of a slider frame in which every channel moved. *)
Fixpoint movesFrom (sliderIdx : nat) (scalars : list Q) : list SliderMoveEvent :=
  match scalars with
  | [] => []
  | scalar :: rest =>
      {| SliderID := Z.of_nat sliderIdx; PercentValue := scalar |}
      :: movesFrom (S sliderIdx) rest
  end.

(** A stored slider value is the unset sentinel or a scalar of [0, 1]. *)
Definition scalarStored (v : Q) : Prop :=
  v = (-1)%Q \/ (0 <= v <= 1)%Q.

(** What the engine reacts to: a line from the reader, a configuration
    change, a new subscriber. *)
Inductive Input :=
| LineRead (drv : keybd_event.Driver) (cfg : config.CanonicalConfig)
    (line : string)
| ConfigChanged (host : Host) (cfg : config.CanonicalConfig)
| Subscribed.

(** The state after a sequence of inputs; a panic ends the run. *)
Fixpoint run (threshold : NoiseReduction -> Q) (inputs : list Input)
    (sio : SerialIO) : SerialIO * Exit :=
  match inputs with
  | [] => (sio, Returned)
  | LineRead drv cfg line :: rest =>
      let r := handleLine threshold drv cfg sio line in
      match out_exit r with
      | Panicked p => (out_sio r, Panicked p)
      | Returned => run threshold rest (out_sio r)
      end
  | ConfigChanged host cfg :: rest =>
      run threshold rest (reload_sio (onConfigReloaded host cfg sio))
  | Subscribed :: rest =>
      run threshold rest (fst (SubscribeToSliderMoveEvents sio))
  end.

(** A tracker that has seen the slider frame [512|512] and the button frame
    [~0~0~0~]. *)
Definition establishedSerialIO : SerialIO :=
  {| connected := true;
     connOptions :=
       {| serial.PortName := "COM6"; serial.BaudRate := 9600;
          serial.DataBits := 8; serial.StopBits := 1;
          serial.MinimumReadSize := 0 |};
     lastKnownNumSliders := 2;
     currentSliderPercentValues := [1 # 2; 1 # 2]%Q;
     lastKnownNumButtons := 3;
     currentButtonValues := [0; 0; 0];
     sliderMoveConsumers := 1 |}.

(** ** The rest of the package, and the firmware that writes the lines *)

(** [strings.HasSuffix]. *)
Definition HasSuffix (s suffix : string) : bool :=
  match cutSuffix s suffix with
  | Some _ => true
  | None => false
  end.

(** [bufio.Reader.ReadString(delim)] on a reader that still holds [stream]
    and fails once it is used up: the bytes up to and with the first
    [delim], what stays in the reader, and whether it failed first. *)
Fixpoint ReadString (stream : string) (delim : ascii)
    : string * string * bool :=
  match stream with
  | EmptyString => (EmptyString, EmptyString, true)
  | String c rest =>
      if Ascii.eqb c delim then (String c EmptyString, rest, false)
      else
        let '(line, rest', err) := ReadString rest delim in
        (String c line, rest', err)
  end.

(** [readLine], lines 215-241: the lines sent on the channel, up to the
    first failed read, whose partial line is dropped. Every read that
    succeeds takes at least one byte, so [fuel] above the length of the
    stream is never used up. *)
Fixpoint readLineFuel (fuel : nat) (stream : string) : list string :=
  match fuel with
  | O => []
  | S fuel' =>
      let '(line, rest, err) := ReadString stream "010" in
      if err then [] else line :: readLineFuel fuel' rest
  end.

Definition readLine (stream : string) : list string :=
  readLineFuel (S (String.length stream)) stream.

(** The button map (buttonMap.m; the lock is not modelled). *)
Definition newButtonMap : gmap Z (list string) := ∅.

Definition buttonMap_get (m : gmap Z (list string)) (key : Z)
    : list string * bool :=
  match m !! key with
  | Some value => (value, true)
  | None => ([], false)
  end.

Definition buttonMap_set (m : gmap Z (list string)) (key : Z)
    (value : list string) : gmap Z (list string) :=
  <[key := value]> m.

(** [funk.FilterString]. *)
Definition FilterString (targets : list string) (f : string -> bool)
    : list string :=
  List.filter f targets.

(** [buttonMapFromConfigs]; [userMapping] lists the entries of the Go map
    in the order the [range] visits them, which Go leaves unspecified. *)
Definition buttonMapFromConfigs (userMapping : list (string * list string))
    : gmap Z (list string) :=
  fold_left
    (fun resultMap '(buttonIdxString, targets) =>
       let buttonIdx := fst (Atoi buttonIdxString) in
       buttonMap_set resultMap buttonIdx
         (FilterString targets (fun s => negb (String.eqb s ""))))
    userMapping newButtonMap.

(** The firmware, deej-buttons.ino: what [sendSliderValues] prints. *)
Module firmware.

Definition digitChar (d : Z) : ascii := ascii_of_nat (48 + Z.to_nat d).

Fixpoint decimalFuel (fuel : nat) (n : Z) (acc : string) : string :=
  match fuel with
  | O => acc
  | S fuel' =>
      let acc' := String (digitChar (n mod 10)) acc in
      if n <? 10 then acc' else decimalFuel fuel' (n / 10) acc'
  end.

(** Arduino's [String(int)]: the decimal digits, after a minus sign for a
    negative value. *)
Definition StringOfInt (n : Z) : string :=
  if n <? 0
  then String "-" (decimalFuel (S (Z.to_nat (Z.log2 (- n)))) (- n) EmptyString)
  else decimalFuel (S (Z.to_nat (Z.log2 n))) n EmptyString.

(** Lines 65-74, for any number of sliders. *)
Fixpoint builtSliderString (analogSliderValues : list Z) : string :=
  match analogSliderValues with
  | [] => EmptyString
  | [v] => StringOfInt v
  | v :: rest => StringOfInt v +:+ String "|" (builtSliderString rest)
  end.

(** Lines 77-82, for any number of buttons. *)
Fixpoint buttonsTail (buttonsValues : list Z) : string :=
  match buttonsValues with
  | [] => EmptyString
  | v :: rest => StringOfInt v +:+ String "~" (buttonsTail rest)
  end.

Definition builtButtonString (buttonsValues : list Z) : string :=
  String "~" (buttonsTail buttonsValues).

(** [Serial.println]. *)
Definition println (s : string) : string := s +:+ CRLF.

(** [sendSliderValues]: the slider line, then the button line. *)
Definition sendSliderValues (analogSliderValues buttonsValues : list Z)
    : list string :=
  [println (builtSliderString analogSliderValues);
   println (builtButtonString buttonsValues)].

(** [updateButtonValues], line 51: a pressed pin reads low. *)
Definition buttonValue (pinReadsHigh : bool) : Z :=
  if pinReadsHigh then 0 else 1.

End firmware.

(** The remembered slider count is either forgotten or the length of the
    stored values. *)
Definition slidersTracked (sio : SerialIO) : Prop :=
  lastKnownNumSliders sio = 0 \/
  lastKnownNumSliders sio = Z.of_nat (length (currentSliderPercentValues sio)).

(** [|f1|f2...|fn], the repeated group of the slider pattern. *)
Fixpoint pipes (fs : list string) : string :=
  match fs with
  | [] => EmptyString
  | f :: rest => String "|" (f +:+ pipes rest)
  end.

(** One to four decimal digits. *)
Definition isField (f : string) : bool :=
  forallb isDigit (list_ascii_of_string f)
  && (1 <=? String.length f)%nat && (String.length f <=? 4)%nat.

(** The events of a slider frame, channel by channel: one for each channel
    whose stored value differs significantly from the new scalar. *)
Fixpoint movedFrom (threshold : NoiseReduction -> Q) (level : NoiseReduction)
    (sliderIdx : nat) (stored scalars : list Q) : list SliderMoveEvent :=
  match stored, scalars with
  | current :: stored', scalar :: scalars' =>
      (if util.SignificantlyDifferent threshold current scalar level
       then [{| SliderID := Z.of_nat sliderIdx; PercentValue := scalar |}]
       else [])
      ++ movedFrom threshold level (S sliderIdx) stored' scalars'
  | _, _ => []
  end.

(** What the tracker stores after such a frame. *)
Fixpoint storedAfter (threshold : NoiseReduction -> Q) (level : NoiseReduction)
    (stored scalars : list Q) : list Q :=
  match stored, scalars with
  | current :: stored', scalar :: scalars' =>
      (if util.SignificantlyDifferent threshold current scalar level
       then scalar else current)
      :: storedAfter threshold level stored' scalars'
  | _, _ => stored
  end.

(** A token [pressedButton] knows. *)
Definition knownToken (conf_key : string) : bool :=
  String.eqb conf_key "FORCE_REFRESH"
  || String.eqb conf_key "WIN_MIC_MUTE_TOGGLE"
  || match mapIndex KEY_MAPS conf_key with Some _ => true | None => false end.

(** The tokens of a list with their positions from [conf_ind] on. *)
Fixpoint indexedFrom (conf_ind : nat) (tokens : list string)
    : list (nat * string) :=
  match tokens with
  | [] => []
  | conf_key :: rest => (conf_ind, conf_key) :: indexedFrom (S conf_ind) rest
  end.

Definition LF : ascii := "010"%char.

(** The bytes of a list of lines, one after the other. *)
Definition joinLines (lines : list string) : string :=
  fold_right String.append EmptyString lines.

(** A line as the reader delivers it: it ends with its only line feed. *)
Definition isLine (line : string) : Prop :=
  exists body, line = body +:+ String LF EmptyString /\
               ~ In LF (list_ascii_of_string body).

(** The key a known token selects. *)
Definition tokenKey (conf_key : string) : option keybd_event.VK :=
  if String.eqb conf_key "FORCE_REFRESH" then Some keybd_event.VK_F5
  else if String.eqb conf_key "WIN_MIC_MUTE_TOGGLE" then Some keybd_event.VK_K
  else mapIndex KEY_MAPS conf_key.

(** The tokens configured for the button of an event; none when the button
    is not in the map. *)
Definition tokensOf (cfg : config.CanonicalConfig)
    (buttonEvent : ButtonPressEvent) : list string :=
  default [] (config.ButtonMapping cfg !! ButtonID buttonEvent).

(** * Properties *)

(** ** The model at work *)

Example expectedLinePattern_examples :
  MatchString expectedLinePattern (lineOf "512|1023|0") = true /\
  MatchString expectedLinePattern (lineOf "7") = true /\
  MatchString expectedLinePattern (lineOf "51299|1023|0") = false /\
  MatchString expectedLinePattern (lineOf "512|1023|") = false /\
  MatchString expectedLinePattern "512|1023|0" = false /\
  MatchString expectedLinePattern (lineOf "~0~1~") = false.
Proof. vm_compute. repeat split; reflexivity. Qed.

Example buttonLinePattern_examples :
  MatchString buttonLinePattern (lineOf "~0~1~0~") = true /\
  MatchString buttonLinePattern (lineOf "~1~") = true /\
  MatchString buttonLinePattern (lineOf "~0~1~0") = false /\
  MatchString buttonLinePattern (lineOf "~10~") = false /\
  MatchString buttonLinePattern (lineOf "~~") = false /\
  MatchString buttonLinePattern (lineOf "0|1") = false.
Proof. vm_compute. repeat split; reflexivity. Qed.

Example Atoi_examples :
  Atoi "1023" = (1023, None) /\ Atoi "-7" = (-7, None) /\
  Atoi "+7" = (7, None) /\ Atoi "" = (0, Some ErrSyntax) /\
  Atoi "12a" = (0, Some ErrSyntax) /\
  Atoi "99999999999999999999" = (maxInt, Some ErrRange).
Proof. vm_compute. repeat split; reflexivity. Qed.

Example Split_examples :
  Split "512|1023|0" "|" = ["512"; "1023"; "0"] /\
  Split "" "|" = [""] /\ Split "|7|" "|" = [""; "7"; ""] /\
  Trim "~~0~1~~" "~" = "0~1" /\ TrimSuffix "0~1~" "~" = "0~1" /\
  TrimSuffix "0~1" "~" = "0~1".
Proof. vm_compute. repeat split; reflexivity. Qed.

(** With inversion a raw 0 becomes 1.0 and a raw 1023 becomes 0.0. *)
Example inverted_examples :
  let inverted :=
    {| config.ConnectionInfo := config.ConnectionInfo exampleConfig;
       config.InvertSliders := true;
       config.NoiseReductionLevel := NoiseDefault;
       config.ButtonMapping := config.ButtonMapping exampleConfig |} in
  map (normalizedScalar inverted) [0; 1023; 256] = [1; 0; 3 # 4]%Q.
Proof. vm_compute. reflexivity. Qed.

(** An unknown key token is logged and the rest is still applied. *)
Example pressedButton_example :
  pressedButton workingDriver exampleConfig
    {| ButtonID := 3; PreviousValue := 0; ButtonValue := 1 |} =
  {| press_launched :=
       Some {| keybd_event.keys := [keybd_event.VK_F5];
               keybd_event.hasCTRL := true;
               keybd_event.hasSuper := false;
               keybd_event.hasALTGR := false |};
     press_invalid := [(1%nat, "NO_SUCH_KEY")];
     press_exit := Returned |}.
Proof. vm_compute. reflexivity. Qed.

(** ** Strings *)

Lemma append_nil_l (s : string) : "" +:+ s = s.
Proof. reflexivity. Qed.

Lemma append_cons (c : ascii) (s1 s2 : string) :
  String c s1 +:+ s2 = String c (s1 +:+ s2).
Proof. reflexivity. Qed.

Lemma append_nil_r (s : string) : s +:+ "" = s.
Proof.
  induction s as [|c s IH]; [reflexivity|].
  now rewrite append_cons, IH.
Qed.

Lemma append_assoc (s1 s2 s3 : string) :
  (s1 +:+ s2) +:+ s3 = s1 +:+ (s2 +:+ s3).
Proof.
  induction s1 as [|c s1 IH]; [reflexivity|].
  now rewrite !append_cons, IH.
Qed.

Lemma append_eq_nil (s1 s2 : string) :
  s1 +:+ s2 = "" -> s1 = "" /\ s2 = "".
Proof.
  destruct s1; [rewrite append_nil_l; auto|].
  rewrite append_cons; discriminate.
Qed.

Lemma append_eq_cons (s1 s2 : string) (c : ascii) (s : string) :
  s1 +:+ s2 = String c s ->
  (s1 = "" /\ s2 = String c s) \/
  (exists s1', s1 = String c s1' /\ s = s1' +:+ s2).
Proof.
  destruct s1 as [|d s1]; intros H.
  - left; auto.
  - right. rewrite append_cons in H. injection H as -> <-. eauto.
Qed.

Lemma length_append (s1 s2 : string) :
  String.length (s1 +:+ s2) = (String.length s1 + String.length s2)%nat.
Proof.
  induction s1 as [|c s1 IH]; [reflexivity|].
  rewrite append_cons. simpl. now rewrite IH.
Qed.

(** ** The matcher decides the language of the pattern *)

Module RegexpFacts.

Lemma nullable_Lang r : nullable r = true <-> Lang r "".
Proof.
  split.
  - induction r; simpl; intros H; try discriminate.
    + constructor.
    + apply andb_true_iff in H as [H1 H2].
      change "" with ("" +:+ ""). constructor; auto.
    + apply orb_true_iff in H as [H|H]; [apply LAltL | apply LAltR]; auto.
    + constructor.
  - intros H. remember "" as s eqn:Es.
    induction H; simpl; try discriminate; try reflexivity.
    + apply append_eq_nil in Es as [-> ->].
      rewrite IHLang1, IHLang2; auto.
    + rewrite IHLang; auto.
    + rewrite IHLang, orb_true_r; auto.
Qed.

Lemma deriv_sound c r : forall s, Lang (deriv c r) s -> Lang r (String c s).
Proof.
  induction r; simpl; intros s H.
  - inversion H.
  - inversion H.
  - destruct (Ascii.eqb_spec c c0) as [->|]; inversion H; subst. constructor.
  - destruct (isDigit c) eqn:E; inversion H; subst. now constructor.
  - assert (Hc : forall w, Lang (Concat (deriv c r1) r2) w ->
                      Lang (Concat r1 r2) (String c w)).
    { intros w Hw. inversion Hw; subst.
      change (String c (s1 +:+ s2)) with (String c s1 +:+ s2).
      constructor; auto. }
    destruct (nullable r1) eqn:N; [|auto].
    inversion H; subst; [auto|].
    change (String c s) with ("" +:+ String c s).
    constructor; [now apply nullable_Lang | auto].
  - inversion H; subst; [apply LAltL | apply LAltR]; auto.
  - inversion H; subst.
    change (String c (s1 +:+ s2)) with (String c s1 +:+ s2).
    constructor; auto.
Qed.

Lemma deriv_complete c r w :
  Lang r w -> forall t, w = String c t -> Lang (deriv c r) t.
Proof.
  induction 1; intros t Et; simpl; try discriminate.
  - injection Et as -> <-. rewrite Ascii.eqb_refl. constructor.
  - injection Et as -> <-. rewrite H. constructor.
  - apply append_eq_cons in Et as [[-> ->]|(s1' & -> & ->)].
    + apply nullable_Lang in H. rewrite H. apply LAltR. auto.
    + assert (Lang (Concat (deriv c r1) r2) (s1' +:+ s2))
        by (constructor; auto).
      destruct (nullable r1); [apply LAltL|]; auto.
  - apply LAltL; auto.
  - apply LAltR; auto.
  - apply append_eq_cons in Et as [[-> ->]|(s1' & -> & ->)].
    + apply (IHLang2 t eq_refl).
    + constructor; auto.
Qed.

Lemma MatchString_Lang s : forall r, MatchString r s = true <-> Lang r s.
Proof.
  induction s as [|c s IH]; intros r; simpl.
  - apply nullable_Lang.
  - rewrite IH. split; [apply deriv_sound | intros H].
    eapply deriv_complete; eauto.
Qed.

End RegexpFacts.

(** ** The button grammar *)

Lemma isDigit_not_tilde d : isDigit d = true -> Ascii.eqb d "~" = false.
Proof.
  destruct d as [[] [] [] [] [] [] [] []]; intros H;
    try discriminate H; reflexivity.
Qed.

Lemma Atoi_single d :
  isDigit d = true ->
  exists v, Atoi (single d) = (v, None) /\ 0 <= v <= 9.
Proof.
  destruct d as [[] [] [] [] [] [] [] []]; intros H; try discriminate H;
    eexists; (split; [vm_compute; reflexivity | lia]).
Qed.

Lemma Lang_tildes s :
  Lang (Star (Concat (Literal "~") Digit)) s ->
  exists ds, Forall (fun d => isDigit d = true) ds /\ s = tildes ds.
Proof.
  intros H. remember (Star (Concat (Literal "~") Digit)) as r eqn:Er.
  induction H; try discriminate Er.
  - exists []. split; [constructor | reflexivity].
  - injection Er as ->. clear IHLang1.
    destruct (IHLang2 eq_refl) as (ds & Hds & ->).
    inversion H; subst. inversion H3; subst. inversion H5; subst.
    exists (c :: ds). split; [constructor; assumption | reflexivity].
Qed.

Lemma buttonLinePattern_shape line :
  MatchString buttonLinePattern line = true ->
  exists d ds, isDigit d = true /\ Forall (fun d => isDigit d = true) ds /\
               line = buttonLineOf d ds.
Proof.
  intros H. apply RegexpFacts.MatchString_Lang in H.
  unfold buttonLinePattern in H.
  repeat match goal with
         | H : Lang (Concat _ _) _ |- _ => inversion H; subst; clear H
         | H : Lang (Literal _) _ |- _ => inversion H; subst; clear H
         | H : Lang Digit _ |- _ => inversion H; subst; clear H
         end.
  match goal with
  | H : Lang (Star _) _ |- _ => apply Lang_tildes in H as (ds & Hds & ->)
  end.
  exists c, ds. repeat split; assumption.
Qed.

Lemma cutSuffix_append s suffix : cutSuffix (s +:+ suffix) suffix = Some s.
Proof.
  induction s as [|c s IH].
  - rewrite append_nil_l. destruct suffix; simpl; [reflexivity|].
    now rewrite Ascii.eqb_refl, String.eqb_refl.
  - rewrite append_cons.
    change (cutSuffix (String c (s +:+ suffix)) suffix)
      with (if String.eqb (String c (s +:+ suffix)) suffix
            then Some EmptyString
            else String c <$> cutSuffix (s +:+ suffix) suffix).
    destruct (String.eqb_spec (String c (s +:+ suffix)) suffix) as [E|_].
    + apply (f_equal String.length) in E. simpl in E.
      rewrite length_append in E. lia.
    + now rewrite IH.
Qed.

Lemma TrimSuffix_append s suffix : TrimSuffix (s +:+ suffix) suffix = s.
Proof. unfold TrimSuffix. now rewrite cutSuffix_append. Qed.

Lemma TrimRight_digits ds : forall d,
  isDigit d = true -> Forall (fun d => isDigit d = true) ds ->
  TrimRight (String d (tildes ds)) "~" = String d (tildes ds).
Proof.
  induction ds as [|d' ds IH]; intros d Hd Hds.
  - simpl. now rewrite (isDigit_not_tilde d Hd).
  - inversion Hds as [|? ? Hd' Hds']; subst.
    specialize (IH d' Hd' Hds').
    change (tildes (d' :: ds)) with (String "~" (String d' (tildes ds))).
    change (TrimRight (String d (String "~" (String d' (tildes ds)))) "~")
      with (match
               match TrimRight (String d' (tildes ds)) "~" with
               | EmptyString =>
                   if inCutset "~" "~" then EmptyString else String "~" EmptyString
               | r => String "~" r
               end
             with
             | EmptyString =>
                 if inCutset d "~" then EmptyString else String d EmptyString
             | r => String d r
             end).
    now rewrite IH.
Qed.

Lemma prefix_tilde_digit d s :
  isDigit d = true -> String.prefix "~" (String d s) = false.
Proof.
  destruct d as [[] [] [] [] [] [] [] []]; intros H;
    try discriminate H; reflexivity.
Qed.

Lemma splitFrom_step sep c s :
  splitFrom sep 0 (String c s) =
  if String.prefix sep (String c s)
  then EmptyString :: splitFrom sep (String.length sep - 1) s
  else match splitFrom sep 0 s with
       | piece :: rest => String c piece :: rest
       | [] => [String c EmptyString]
       end.
Proof. reflexivity. Qed.

Lemma Split_digits ds : forall d,
  isDigit d = true -> Forall (fun d => isDigit d = true) ds ->
  Split (String d (tildes ds)) "~" = map single (d :: ds).
Proof.
  unfold Split.
  induction ds as [|d' ds IH]; intros d Hd Hds;
    rewrite splitFrom_step, (prefix_tilde_digit d _ Hd).
  - reflexivity.
  - inversion Hds as [|? ? Hd' Hds']; subst.
    change (tildes (d' :: ds)) with (String "~" (String d' (tildes ds))).
    rewrite splitFrom_step.
    change (String.prefix "~" (String "~" (String d' (tildes ds)))) with true.
    change (String.length "~" - 1)%nat with 0%nat.
    cbv iota. now rewrite (IH d' Hd' Hds').
Qed.

Lemma buttonFields_buttonLineOf d ds :
  isDigit d = true -> Forall (fun d => isDigit d = true) ds ->
  buttonFields (buttonLineOf d ds) = map single (d :: ds).
Proof.
  intros Hd Hds. unfold buttonFields, buttonLineOf.
  replace (String "~" (String d (tildes ds +:+ String "~" CRLF)))
    with ((String "~" (String d (tildes ds)) +:+ "~") +:+ CRLF).
  2:{ rewrite !append_cons. do 2 f_equal. now rewrite append_assoc. }
  rewrite !TrimSuffix_append. unfold Trim.
  change (TrimLeft (String "~" (String d (tildes ds))) "~")
    with (TrimLeft (String d (tildes ds)) "~").
  replace (TrimLeft (String d (tildes ds)) "~") with (String d (tildes ds)).
  2:{ simpl. now rewrite (isDigit_not_tilde d Hd). }
  rewrite TrimRight_digits by assumption.
  now apply Split_digits.
Qed.

Lemma numbersOf_digits ds :
  Forall (fun d => isDigit d = true) ds ->
  Forall (fun v => 0 <= v <= 9) (numbersOf (map single ds)).
Proof.
  induction 1 as [|d ds Hd _ IH]; simpl; constructor; [|exact IH].
  destruct (Atoi_single d Hd) as (v & -> & Hv). exact Hv.
Qed.

(** A line the button grammar accepts splits into one single-digit field per
    channel, at least one, and every field parses to 0..9. *)
Lemma buttonLine_fields line :
  MatchString buttonLinePattern line = true ->
  exists d ds, isDigit d = true /\ Forall (fun d => isDigit d = true) ds /\
    line = buttonLineOf d ds /\
    buttonFields line = map single (d :: ds) /\
    Forall (fun v => 0 <= v <= 9) (numbersOf (buttonFields line)).
Proof.
  intros H. destruct (buttonLinePattern_shape line H) as (d & ds & Hd & Hds & ->).
  exists d, ds. repeat split; try assumption.
  - now apply buttonFields_buttonLineOf.
  - rewrite buttonFields_buttonLineOf by assumption.
    apply numbersOf_digits. now constructor.
Qed.

(** ** The button tracker *)

Lemma edgesFrom_nil_r idx stored : edgesFrom idx stored [] = [].
Proof. destruct stored; reflexivity. Qed.

(** The loop of [handleButtons] on a frame whose first number passes the
    guard and whose channels all have a stored value. *)
Lemma buttonLoop_done fields : forall idx values evs,
  (idx + length fields <= length values)%nat ->
  Forall (fun v => v <= 9) (numbersOf fields) ->
  buttonLoop idx fields values evs =
    (take idx values ++ numbersOf fields ++ drop (idx + length fields) values,
     evs ++ edgesFrom idx (drop idx values) (numbersOf fields),
     LoopDone).
Proof.
  induction fields as [|f fields IH]; intros idx values evs Hlen Hnum.
  - simpl. rewrite Nat.add_0_r, take_drop, edgesFrom_nil_r, app_nil_r.
    reflexivity.
  - cbn [length] in Hlen |- *. cbn [numbersOf map] in Hnum |- *.
    fold (numbersOf fields) in Hnum |- *.
    inversion Hnum as [|? ? Hf Hrest]; subst.
    cbn [buttonLoop].
    replace (9 <? fst (Atoi f)) with false by (symmetry; apply Z.ltb_ge; lia).
    rewrite andb_false_r.
    destruct (lookup_lt_is_Some_2 values idx) as [previous Hprev]; [lia|].
    rewrite Hprev, (drop_S _ _ _ Hprev). cbn [edgesFrom].
    replace (idx + S (length fields))%nat with (S idx + length fields)%nat by lia.
    destruct (Z.eqb_spec previous (fst (Atoi f))) as [E|NE]; cbn [negb].
    + rewrite IH by (assumption || lia).
      rewrite (take_S_r _ _ _ Hprev), E, <- !app_assoc. reflexivity.
    + rewrite IH by (rewrite ?length_insert; assumption || lia).
      rewrite drop_insert_lt by lia.
      rewrite (take_S_r _ _ (fst (Atoi f)))
        by (apply list_lookup_insert_eq; lia).
      rewrite take_insert_ge by lia.
      rewrite drop_insert_lt by lia.
      rewrite <- !app_assoc. reflexivity.
Qed.

(** [pressLoop] calls [pressedButton] on the rising edges, in order, as far
    as it gets. *)
Lemma pressLoop_prefix drv cfg evs :
  fst (fst (pressLoop drv cfg evs)) `prefix_of` filter (fun e => risingEdge e = true) evs.
Proof.
  induction evs as [|ev evs IH]; simpl.
  - reflexivity.
  - rewrite filter_cons. fold (risingEdge ev).
    destruct (risingEdge ev) eqn:E.
    + rewrite decide_True by reflexivity.
      destruct (press_exit (pressedButton drv cfg ev)).
      * destruct (pressLoop drv cfg evs) as [[pressed launched] e].
        simpl in *. now apply prefix_cons.
      * simpl. apply prefix_cons, prefix_nil.
    + rewrite decide_False by discriminate. exact IH.
Qed.

Lemma pressLoop_returned drv cfg evs :
  snd (pressLoop drv cfg evs) = Returned ->
  fst (fst (pressLoop drv cfg evs)) = filter (fun e => risingEdge e = true) evs.
Proof.
  induction evs as [|ev evs IH]; simpl.
  - reflexivity.
  - rewrite filter_cons. fold (risingEdge ev).
    destruct (risingEdge ev) eqn:E.
    + rewrite decide_True by reflexivity.
      destruct (press_exit (pressedButton drv cfg ev)).
      * destruct (pressLoop drv cfg evs) as [[pressed launched] e].
        simpl in *. intros ->. now rewrite IH.
      * discriminate.
    + rewrite decide_False by discriminate. exact IH.
Qed.

(** Every call [pressLoop] made returned, if the loop did. *)
Lemma pressLoop_calls_returned drv cfg evs :
  snd (pressLoop drv cfg evs) = Returned ->
  Forall (fun ev => press_exit (pressedButton drv cfg ev) = Returned)
    (fst (fst (pressLoop drv cfg evs))).
Proof.
  induction evs as [|ev evs IH]; simpl.
  - constructor.
  - destruct (_ && _).
    + destruct (press_exit (pressedButton drv cfg ev)) eqn:E.
      * destruct (pressLoop drv cfg evs) as [[pressed launched] e].
        simpl in *. intros ->. constructor; auto.
      * discriminate.
    + exact IH.
Qed.

Lemma pressedButton_works drv cfg ev :
  driverWorks drv -> press_exit (pressedButton drv cfg ev) = Returned.
Proof.
  intros [Hinit Hlaunch]. unfold pressedButton, keybd_event.NewKeyBonding,
    keybd_event.Launching.
  rewrite Hinit. destruct (applyTokens _ _ _) as [kb' invalid].
  now rewrite Hlaunch.
Qed.

Lemma pressLoop_works drv cfg evs :
  driverWorks drv -> snd (pressLoop drv cfg evs) = Returned.
Proof.
  intros Hw. induction evs as [|ev evs IH]; simpl; [reflexivity|].
  destruct (_ && _); [|exact IH].
  rewrite (pressedButton_works drv cfg ev Hw).
  destruct (pressLoop drv cfg evs) as [[pressed launched] e]. exact IH.
Qed.

Lemma edgesFrom_below stored : forall new idx i,
  (i < idx)%nat ->
  filter (fun e => ButtonID e = Z.of_nat i) (edgesFrom idx stored new) = [].
Proof.
  induction stored as [|p stored IH]; intros [|v new] idx i Hi; try reflexivity.
  cbn [edgesFrom]. rewrite filter_app, IH by lia.
  destruct (p =? v); [reflexivity|].
  rewrite filter_cons_False; [reflexivity|]. simpl. lia.
Qed.

(** The events of a frame that concern one channel. *)
Lemma edgesFrom_channel stored : forall new idx k,
  filter (fun e => ButtonID e = Z.of_nat (idx + k)) (edgesFrom idx stored new) =
  match stored !! k, new !! k with
  | Some previous, Some number =>
      if previous =? number then []
      else [{| ButtonID := Z.of_nat (idx + k);
               PreviousValue := previous; ButtonValue := number |}]
  | _, _ => []
  end.
Proof.
  induction stored as [|p stored IH]; intros [|v new] idx k;
    try reflexivity.
  - destruct k; simpl; [reflexivity|]. now destruct (stored !! k).
  - cbn [edgesFrom]. rewrite filter_app. destruct k as [|k].
    + rewrite Nat.add_0_r, edgesFrom_below, app_nil_r by lia. simpl.
      destruct (p =? v); [reflexivity|].
      now rewrite filter_cons_True.
    + replace (idx + S k)%nat with (S idx + k)%nat by lia.
      rewrite IH. simpl.
      destruct (p =? v); [reflexivity|].
      rewrite filter_cons_False; [reflexivity|]. simpl. lia.
Qed.

Lemma filter_prefix {A} (P : A -> Prop) `{!forall x, Decision (P x)}
    (l1 l2 : list A) :
  l1 `prefix_of` l2 -> filter P l1 `prefix_of` filter P l2.
Proof. intros [k ->]. rewrite filter_app. now exists (filter P k). Qed.

Lemma buttonCountRule_length n sio :
  buttonsTracked sio -> n <> 0%nat ->
  length (currentButtonValues (buttonCountRule n sio)) = n /\
  lastKnownNumButtons (buttonCountRule n sio) = Z.of_nat n.
Proof.
  intros Hwf Hn. unfold buttonCountRule.
  destruct (Z.eqb_spec (Z.of_nat n) (lastKnownNumButtons sio)) as [E|NE]; simpl.
  - split; [|now symmetry]. destruct Hwf as [H0|Hl]; lia.
  - now rewrite length_replicate.
Qed.

(** What [handleButtons] does with a line of the button grammar. *)
Lemma handleButtons_frame drv cfg sio line :
  MatchString buttonLinePattern line = true ->
  buttonsTracked sio ->
  let fields := buttonFields line in
  let stored := currentButtonValues (buttonCountRule (length fields) sio) in
  let events := edgesFrom 0 stored (numbersOf fields) in
  let r := handleButtons drv cfg sio line in
  out_buttonEvents r = events /\
  out_pressed r = fst (fst (pressLoop drv cfg events)) /\
  out_exit r = snd (pressLoop drv cfg events) /\
  currentButtonValues (out_sio r) = numbersOf fields /\
  lastKnownNumButtons (out_sio r) = Z.of_nat (length fields).
Proof.
  intros Hm Hwf fields stored events r.
  destruct (buttonLine_fields line Hm) as (d & ds & Hd & Hds & _ & Hf & Hnum).
  assert (Hn : length fields <> 0%nat) by (unfold fields; now rewrite Hf).
  destruct (buttonCountRule_length (length fields) sio Hwf Hn) as [Hlen Hlast].
  assert (Hloop : buttonLoop 0 fields stored [] =
                  (numbersOf fields, events, LoopDone)).
  { rewrite buttonLoop_done.
    - unfold events. rewrite drop_0, take_0, drop_ge, app_nil_r; [reflexivity|].
      fold stored in Hlen. lia.
    - fold stored in Hlen. lia.
    - eapply Forall_impl; [exact Hnum|]. simpl. intros; lia. }
  subst r. unfold handleButtons. fold fields. fold stored. rewrite Hloop.
  destruct (pressLoop drv cfg events) as [[pressed launched] e] eqn:Ep.
  simpl. repeat split; try reflexivity. exact Hlast.
Qed.

(** ** Package util *)

Lemma NormalizeScalar_range v :
  (0 <= util.NormalizeScalar v <= 1)%Q.
Proof.
  unfold util.NormalizeScalar.
  set (clamped := if Qle_bool v 0 then 0%Q else if Qle_bool 1 v then 1%Q else v).
  assert (Hc : (0 <= clamped <= 1)%Q).
  { unfold clamped. destruct (Qle_bool v 0) eqn:E0; [lra|].
    destruct (Qle_bool 1 v) eqn:E1; [lra|].
    assert (~ (v <= 0)%Q) by (rewrite <- Qle_bool_iff; congruence).
    assert (~ (1 <= v)%Q) by (rewrite <- Qle_bool_iff; congruence).
    lra. }
  rewrite Qred_correct.
  assert (H0 : 0 <= Qfloor (clamped * 100 + (1 # 2))).
  { apply Z.le_trans with (Qfloor 0); [reflexivity|].
    apply Qfloor_resp_le. lra. }
  assert (H1 : Qfloor (clamped * 100 + (1 # 2)) <= 100).
  { apply Z.le_trans with (Qfloor (201 # 2)); [|vm_compute; discriminate].
    apply Qfloor_resp_le. lra. }
  revert H0 H1. generalize (Qfloor (clamped * 100 + (1 # 2))).
  intros z H0 H1. split; unfold Qle; simpl; lia.
Qed.

Section EngineFacts.

Variable threshold : NoiseReduction -> Q.

Lemma SignificantlyDifferent_same v l :
  (0 <= threshold l)%Q ->
  util.SignificantlyDifferent threshold v v l = false.
Proof.
  intros H. unfold util.SignificantlyDifferent.
  apply negb_false_iff, Qle_bool_iff.
  assert (E : (v - v == 0)%Q) by ring.
  rewrite E. exact H.
Qed.

Lemma SignificantlyDifferent_unset v l :
  (threshold l < 1)%Q -> (0 <= v)%Q ->
  util.SignificantlyDifferent threshold unset v l = true.
Proof.
  intros H Hv. unfold util.SignificantlyDifferent, unset.
  apply negb_true_iff. destruct (Qle_bool _ _) eqn:E; [|reflexivity].
  apply Qle_bool_iff in E.
  assert (Ha : (Qabs (-1 - v) == 1 + v)%Q).
  { rewrite Qabs_neg by lra. ring. }
  rewrite Ha in E. lra.
Qed.

Lemma normalizedScalar_range cfg number :
  (0 <= normalizedScalar cfg number <= 1)%Q.
Proof.
  unfold normalizedScalar.
  pose proof (NormalizeScalar_range (inject_Z number / 1023)) as H.
  destruct (config.InvertSliders cfg); [|exact H].
  rewrite Qred_correct. lra.
Qed.

End EngineFacts.

(** ** The slider tracker *)

Section SliderTracker.

Variable threshold : NoiseReduction -> Q.
Variable cfg : config.CanonicalConfig.

Lemma deliver_nil consumers : deliver consumers [] = [].
Proof.
  unfold deliver. induction (seq 0 consumers) as [|c cs IH];
    [reflexivity | exact IH].
Qed.

(** The loop keeps the length of the slice and the channels it is past. *)
Lemma sliderLoop_frame fields : forall idx values evs values' evs' e,
  sliderLoop threshold cfg idx fields values evs = (values', evs', e) ->
  length values' = length values /\
  forall i, (i < idx)%nat -> values' !! i = values !! i.
Proof.
  induction fields as [|f fields IH]; intros idx values evs values' evs' e;
    cbn [sliderLoop].
  - intros [= <- <- <-]. auto.
  - destruct (_ && _); [intros [= <- <- <-]; auto|].
    destruct (values !! idx) as [current|] eqn:Hcur;
      [|intros [= <- <- <-]; auto].
    destruct (util.SignificantlyDifferent _ _ _ _); intros H;
      apply IH in H as [Hlen Hkeep].
    + rewrite length_insert in Hlen. split; [exact Hlen|].
      intros i Hi. rewrite Hkeep by lia.
      apply list_lookup_insert_ne. lia.
    + split; [exact Hlen|]. intros i Hi. apply Hkeep. lia.
Qed.

(** Running the loop again on what it left changes nothing and produces no
    event; it leaves the loop the way it did. *)
Lemma sliderLoop_again fields :
  (forall l, 0 <= threshold l)%Q ->
  forall idx values evs values' evs' e,
  sliderLoop threshold cfg idx fields values evs = (values', evs', e) ->
  forall evs0,
    sliderLoop threshold cfg idx fields values' evs0 = (values', evs0, e).
Proof.
  intros Hthr.
  induction fields as [|f fields IH]; intros idx values evs values' evs' e;
    cbn [sliderLoop].
  - intros [= <- <- <-]. reflexivity.
  - destruct (_ && _); [intros [= <- <- <-]; reflexivity|].
    destruct (values !! idx) as [current|] eqn:Hcur.
    2:{ intros [= <- <- <-] evs0. now rewrite Hcur. }
    destruct (util.SignificantlyDifferent _ current _ _) eqn:Hsd;
      intros H evs0.
    + destruct (sliderLoop_frame _ _ _ _ _ _ _ H) as [_ Hkeep].
      rewrite (Hkeep idx) by lia.
      rewrite list_lookup_insert_eq by (eapply lookup_lt_Some; eauto).
      rewrite SignificantlyDifferent_same by apply Hthr.
      eapply IH; eauto.
    + destruct (sliderLoop_frame _ _ _ _ _ _ _ H) as [_ Hkeep].
      rewrite (Hkeep idx), Hcur, Hsd by lia.
      eapply IH; eauto.
Qed.

(** The loop over channels that are all unset: every channel moves. *)
Lemma sliderLoop_unset fields :
  (forall l, threshold l < 1)%Q ->
  forall done evs,
  Forall (fun v => v <= 1023) (numbersOf fields) ->
  sliderLoop threshold cfg (length done) fields
    (done ++ replicate (length fields) unset) evs =
  (done ++ map (normalizedScalar cfg) (numbersOf fields),
   evs ++ movesFrom (length done)
            (map (normalizedScalar cfg) (numbersOf fields)),
   LoopDone).
Proof.
  intros Hthr.
  induction fields as [|f fields IH]; intros done evs Hnum.
  - simpl. now rewrite !app_nil_r.
  - cbn [length replicate numbersOf map] in Hnum |- *.
    fold (numbersOf fields) in Hnum |- *.
    inversion Hnum as [|? ? Hf Hrest]; subst.
    cbn [sliderLoop movesFrom].
    replace (1023 <? fst (Atoi f)) with false
      by (symmetry; apply Z.ltb_ge; lia).
    rewrite andb_false_r.
    rewrite list_lookup_middle by reflexivity.
    rewrite SignificantlyDifferent_unset
      by (apply Hthr || apply normalizedScalar_range).
    rewrite insert_app_r_alt, Nat.sub_diag by lia. cbn [insert list_insert].
    specialize (IH (done ++ [normalizedScalar cfg (fst (Atoi f))])
                  (evs ++ [{| SliderID := Z.of_nat (length done);
                              PercentValue :=
                                normalizedScalar cfg (fst (Atoi f)) |}])
                  Hrest).
    rewrite length_app, Nat.add_1_r, <- !app_assoc in IH.
    exact IH.
Qed.

(** The guard of line 451 leaves the loop before anything is stored. *)
Lemma sliderLoop_guard f fields values evs :
  1023 < fst (Atoi f) ->
  sliderLoop threshold cfg 0 (f :: fields) values evs =
  (values, evs, LoopReturn).
Proof.
  intros H. cbn [sliderLoop].
  now replace (1023 <? fst (Atoi f)) with true
    by (symmetry; apply Z.ltb_lt; lia).
Qed.

(** The loop stores nothing but scalars of [0, 1]. *)
Lemma sliderLoop_stored fields : forall idx values evs values' evs' e,
  sliderLoop threshold cfg idx fields values evs = (values', evs', e) ->
  Forall scalarStored values -> Forall scalarStored values'.
Proof.
  induction fields as [|f fields IH]; intros idx values evs values' evs' e;
    cbn [sliderLoop].
  - intros [= <- <- <-]. auto.
  - destruct (_ && _); [intros [= <- <- <-]; auto|].
    destruct (values !! idx) as [current|]; [|intros [= <- <- <-]; auto].
    destruct (util.SignificantlyDifferent _ _ _ _); intros H Hv;
      apply IH in H; auto.
    apply Forall_insert; [exact Hv|].
    right. apply normalizedScalar_range.
Qed.

End SliderTracker.

(** ** Claims *)

(** C8: a line that matches neither the button grammar nor the slider
    grammar is dropped: [handleLine] returns normally with no event of any
    kind, no call of the action trigger, and the tracker state (stored slider
    and button values, both remembered counts) exactly as it was. *)
Theorem malformed_line_dropped threshold drv cfg sio line :
  MatchString buttonLinePattern line = false ->
  MatchString expectedLinePattern line = false ->
  let r := handleLine threshold drv cfg sio line in
  out_sio r = sio /\ out_moveEvents r = [] /\ out_sent r = [] /\
  out_buttonEvents r = [] /\ out_pressed r = [] /\ out_launched r = [] /\
  out_exit r = Returned.
Proof.
  intros Hb Hs. unfold handleLine. rewrite Hb, Hs. simpl.
  repeat split; reflexivity.
Qed.

Lemma malformed_line_dropped_witness :
  let r := handleLine exampleThreshold workingDriver exampleConfig
             establishedSerialIO (lineOf "deej booting...") in
  out_sio r = establishedSerialIO /\ out_moveEvents r = [] /\ out_sent r = [] /\
  out_buttonEvents r = [] /\ out_pressed r = [] /\ out_launched r = [] /\
  out_exit r = Returned.
Proof.
  apply (malformed_line_dropped exampleThreshold workingDriver exampleConfig
           establishedSerialIO (lineOf "deej booting..."));
    vm_compute; reflexivity.
Defined.






(** ** The action trigger *)

Lemma handleLine_pressed_returned threshold drv cfg sio line :
  out_exit (handleLine threshold drv cfg sio line) = Returned ->
  Forall (fun ev => press_exit (pressedButton drv cfg ev) = Returned)
    (out_pressed (handleLine threshold drv cfg sio line)).
Proof.
  unfold handleLine.
  destruct (MatchString buttonLinePattern line).
  - unfold handleButtons.
    destruct (buttonLoop _ _ _ _) as [[values evs] e].
    destruct e; simpl; try constructor.
    pose proof (pressLoop_calls_returned drv cfg evs) as H.
    destruct (pressLoop drv cfg evs) as [[pressed launched] e']. exact H.
  - destruct (negb _); [constructor|].
    destruct (sliderLoop _ _ _ _ _ _) as [[values evs] e].
    destruct e; constructor.
Qed.

(** C1, as the code has it: an invocation of [pressedButton] returns exactly
    when the key-input mechanism neither fails to initialise nor fails to
    issue the key action (an unknown key token is only logged); either
    failure is raised as a panic with that error. The panic is not absorbed:
    a [handleLine] that made such an invocation panics itself, and a
    [handleLine] that panics ends the read loop, the lines that follow never
    being handled. *)
Theorem pressedButton_failure_panics drv cfg buttonEvent :
  let kb :=
    fst (applyTokens 0
           (default [] (config.ButtonMapping cfg !! ButtonID buttonEvent))
           (fst (keybd_event.NewKeyBonding drv))) in
  press_exit (pressedButton drv cfg buttonEvent) =
    match keybd_event.initError drv with
    | Some e => Panicked (PanicErr e)
    | None =>
        match keybd_event.launchError drv kb with
        | Some e => Panicked (PanicErr e)
        | None => Returned
        end
    end /\
  (forall threshold sio line,
      buttonEvent ∈ out_pressed (handleLine threshold drv cfg sio line) ->
      press_exit (pressedButton drv cfg buttonEvent) <> Returned ->
      out_exit (handleLine threshold drv cfg sio line) <> Returned) /\
  (forall threshold sio line rest p,
      out_exit (handleLine threshold drv cfg sio line) = Panicked p ->
      readLoop threshold drv cfg sio (line :: rest) =
        (out_sio (handleLine threshold drv cfg sio line),
         [handleLine threshold drv cfg sio line], Panicked p)).
Proof.
  intros kb. split; [|split].
  - subst kb. unfold pressedButton, keybd_event.NewKeyBonding,
      keybd_event.Launching. simpl.
    destruct (keybd_event.initError drv); [reflexivity|].
    destruct (applyTokens _ _ _) as [kb' invalid]. simpl.
    destruct (keybd_event.launchError drv kb'); reflexivity.
  - intros threshold sio line Hin Hpanic Hret.
    apply handleLine_pressed_returned in Hret.
    rewrite Forall_forall in Hret. apply Hpanic, Hret, Hin.
  - intros threshold sio line rest p Hp. cbn [readLoop]. now rewrite Hp.
Qed.

(** C1 as stated fails: with a key-input mechanism that cannot be
    initialised, the press of button 0 panics, [handleLine] panics, and the
    read loop ends without handling the slider line behind it; the same with
    one that cannot issue the key action. *)
Lemma pressedButton_failure_not_absorbed :
  let press := {| ButtonID := 0; PreviousValue := 0; ButtonValue := 1 |} in
  let lines := [lineOf "~1~0~0~"; lineOf "512|1023"] in
  press_exit (pressedButton noInitDriver exampleConfig press)
    = Panicked (PanicErr "permission denied") /\
  press_exit (pressedButton noLaunchDriver exampleConfig press)
    = Panicked (PanicErr "write failed") /\
  out_exit (handleLine exampleThreshold noInitDriver exampleConfig
              establishedSerialIO (lineOf "~1~0~0~"))
    = Panicked (PanicErr "permission denied") /\
  snd (readLoop exampleThreshold noInitDriver exampleConfig
         establishedSerialIO lines)
    = Panicked (PanicErr "permission denied") /\
  length (snd (fst (readLoop exampleThreshold noInitDriver exampleConfig
                      establishedSerialIO lines))) = 1%nat /\
  currentSliderPercentValues
    (fst (fst (readLoop exampleThreshold noInitDriver exampleConfig
                 establishedSerialIO lines)))
    = currentSliderPercentValues establishedSerialIO.
Proof. vm_compute. repeat split; reflexivity. Qed.

(** ** Claims about the button tracker *)

Lemma filter_comm {A} (P Q : A -> Prop)
    `{!forall x, Decision (P x), !forall x, Decision (Q x)} (l : list A) :
  filter P (filter Q l) = filter Q (filter P l).
Proof.
  rewrite !list_filter_filter. apply list_filter_iff. intros x. tauto.
Qed.

Lemma handleLine_button threshold drv cfg sio line :
  MatchString buttonLinePattern line = true ->
  handleLine threshold drv cfg sio line = handleButtons drv cfg sio line.
Proof. intros H. unfold handleLine. now rewrite H. Qed.

(** C3: in a button frame, a channel whose stored value is 0 and whose new
    value is not 0 has the action trigger invoked exactly once, with the
    event (channel, previous 0, the new value), within the handling of the
    frame and before the handler returns; a channel on a falling edge, or
    unchanged, or with any other stored value, never has it invoked; no
    channel has it invoked twice or with another event. The handler returns
    whenever the key-input mechanism works. The stored value is the one the
    frame is compared with, after the channel-count rule. *)
Theorem rising_edge_invokes_trigger_once threshold drv cfg sio line :
  MatchString buttonLinePattern line = true ->
  buttonsTracked sio ->
  let fields := buttonFields line in
  let stored := currentButtonValues (buttonCountRule (length fields) sio) in
  let r := handleLine threshold drv cfg sio line in
  (driverWorks drv -> out_exit r = Returned) /\
  forall channel previous number,
    stored !! channel = Some previous ->
    numbersOf fields !! channel = Some number ->
    (previous = 0 -> number <> 0 -> out_exit r = Returned ->
     callsFor channel r =
       [{| ButtonID := Z.of_nat channel; PreviousValue := 0;
           ButtonValue := number |}]) /\
    (~ (previous = 0 /\ number <> 0) -> callsFor channel r = []) /\
    callsFor channel r `prefix_of`
      [{| ButtonID := Z.of_nat channel; PreviousValue := previous;
          ButtonValue := number |}].
Proof.
  intros Hm Hwf fields stored r. subst r.
  rewrite (handleLine_button threshold drv cfg sio line Hm).
  destruct (handleButtons_frame drv cfg sio line Hm Hwf)
    as (_ & Hpressed & Hexit & _).
  fold fields in Hpressed, Hexit. fold stored in Hpressed, Hexit.
  set (events := edgesFrom 0 stored (numbersOf fields)) in *.
  split.
  - intros Hw. rewrite Hexit. now apply pressLoop_works.
  - intros channel previous number Hprev Hnum.
    assert (Hchan :
      filter (fun e => ButtonID e = Z.of_nat channel)
        (filter (fun e => risingEdge e = true) events) =
      if (previous =? 0) && negb (number =? 0)
      then [{| ButtonID := Z.of_nat channel; PreviousValue := previous;
               ButtonValue := number |}]
      else []).
    { rewrite filter_comm. unfold events.
      pose proof (edgesFrom_channel stored (numbersOf fields) 0 channel) as E.
      rewrite Nat.add_0_l, Hprev, Hnum in E. rewrite E.
      destruct (Z.eqb_spec previous number) as [->|NE].
      - rewrite filter_nil.
        destruct (Z.eqb_spec number 0); reflexivity.
      - destruct ((previous =? 0) && negb (number =? 0)) eqn:R.
        + now rewrite filter_cons_True.
        + rewrite filter_cons_False; [reflexivity|].
          unfold risingEdge; simpl. now rewrite R. }
    pose proof (filter_prefix (fun e => ButtonID e = Z.of_nat channel) _ _
                  (pressLoop_prefix drv cfg events)) as Hp.
    rewrite Hchan in Hp.
    unfold callsFor. rewrite Hpressed. split; [|split].
    + intros -> Hn Hret. rewrite Hexit in Hret.
      rewrite (pressLoop_returned drv cfg events Hret), Hchan.
      destruct (Z.eqb_spec number 0); [contradiction | reflexivity].
    + intros Hno.
      replace ((previous =? 0) && negb (number =? 0)) with false in Hp.
      * now apply prefix_nil_inv.
      * symmetry. apply not_true_is_false. intros R.
        apply andb_true_iff in R as [R1 R2].
        apply Hno. split; [now apply Z.eqb_eq|].
        apply negb_true_iff in R2. now apply Z.eqb_neq.
    + destruct ((previous =? 0) && negb (number =? 0)); [exact Hp|].
      apply prefix_nil_inv in Hp. rewrite Hp. apply prefix_nil.
Qed.

Lemma rising_edge_invokes_trigger_once_witness :
  let pressed :=
    handleLine exampleThreshold workingDriver exampleConfig
      establishedSerialIO (lineOf "~0~0~1~") in
  let released :=
    handleLine exampleThreshold workingDriver exampleConfig
      (out_sio pressed) (lineOf "~0~0~0~") in
  out_exit pressed = Returned /\
  callsFor 2 pressed =
    [{| ButtonID := 2; PreviousValue := 0; ButtonValue := 1 |}] /\
  callsFor 0 pressed = [] /\
  callsFor 2 released = [].
Proof.
  intros pressed released.
  assert (Hm1 : MatchString buttonLinePattern (lineOf "~0~0~1~") = true)
    by (vm_compute; reflexivity).
  assert (Hm2 : MatchString buttonLinePattern (lineOf "~0~0~0~") = true)
    by (vm_compute; reflexivity).
  assert (Hw1 : buttonsTracked establishedSerialIO) by (right; reflexivity).
  assert (Hw2 : buttonsTracked (out_sio pressed))
    by (right; vm_compute; reflexivity).
  assert (Hd : driverWorks workingDriver) by (split; reflexivity).
  destruct (rising_edge_invokes_trigger_once exampleThreshold workingDriver
              exampleConfig establishedSerialIO _ Hm1 Hw1) as [Hret Hch].
  destruct (rising_edge_invokes_trigger_once exampleThreshold workingDriver
              exampleConfig (out_sio pressed) _ Hm2 Hw2) as [_ Hch2].
  split; [|split; [|split]].
  - exact (Hret Hd).
  - apply (proj1 (Hch 2%nat 0 1 eq_refl eq_refl));
      [reflexivity | discriminate | exact (Hret Hd)].
  - apply (proj1 (proj2 (Hch 0%nat 0 0 eq_refl eq_refl))).
    intros [_ H]. now apply H.
  - apply (proj1 (proj2 (Hch2 2%nat 1 0 eq_refl eq_refl))).
    intros [H _]. discriminate H.
Defined.

(** The hypothesis of C3 holds of every state the engine reaches. *)
Lemma handleLine_buttonsTracked threshold drv cfg sio line :
  buttonsTracked sio ->
  buttonsTracked (out_sio (handleLine threshold drv cfg sio line)).
Proof.
  intros Hwf. destruct (MatchString buttonLinePattern line) eqn:Hm.
  - rewrite handleLine_button by exact Hm.
    destruct (handleButtons_frame drv cfg sio line Hm Hwf)
      as (_ & _ & _ & Hv & Hn).
    right. rewrite Hn, Hv. unfold numbersOf. now rewrite length_map.
  - unfold handleLine. rewrite Hm.
    destruct (negb _); [exact Hwf|].
    destruct (sliderLoop _ _ _ _ _ _) as [[values evs] e].
    assert (H : forall n, buttonsTracked (sliderCountRule n sio)).
    { intros n. unfold sliderCountRule. now destruct (negb _). }
    specialize (H (length (sliderFields line))).
    destruct e; exact H.
Qed.

Lemma run_buttonsTracked threshold inputs : forall sio,
  buttonsTracked sio -> buttonsTracked (fst (run threshold inputs sio)).
Proof.
  induction inputs as [|[drv cfg line|host cfg|] inputs IH]; intros sio Hwf;
    cbn [run].
  - exact Hwf.
  - pose proof (handleLine_buttonsTracked threshold drv cfg sio line Hwf).
    destruct (out_exit _); [now apply IH | assumption].
  - apply IH. left. unfold onConfigReloaded.
    destruct (connectionParamsChanged cfg sio); [|reflexivity].
    destruct (Start host cfg (Stop sio)); reflexivity.
  - apply IH. exact Hwf.
Qed.

(** ** Claims about the button grammar *)

Lemma Lang_tildes_intro ds :
  Forall (fun d => isDigit d = true) ds ->
  Lang (Star (Concat (Literal "~") Digit)) (tildes ds).
Proof.
  induction 1 as [|d ds Hd _ IH].
  - constructor.
  - change (tildes (d :: ds))
      with ((String "~" EmptyString +:+ single d) +:+ tildes ds).
    constructor; [|exact IH]. constructor; constructor. exact Hd.
Qed.

Lemma buttonLineOf_accepted d ds :
  isDigit d = true -> Forall (fun d => isDigit d = true) ds ->
  MatchString buttonLinePattern (buttonLineOf d ds) = true.
Proof.
  intros Hd Hds. apply RegexpFacts.MatchString_Lang.
  change (buttonLineOf d ds)
    with (String "~" EmptyString +:+
          (single d +:+
           (tildes ds +:+
            (String "~" EmptyString +:+
             (String "013" EmptyString +:+ String "010" EmptyString))))).
  unfold buttonLinePattern.
  repeat (constructor; try assumption).
  now apply Lang_tildes_intro.
Qed.

Lemma isDigit_spec d :
  isDigit d = true <->
  In d ["0"; "1"; "2"; "3"; "4"; "5"; "6"; "7"; "8"; "9"]%char.
Proof.
  split.
  - destruct d as [[] [] [] [] [] [] [] []]; intros H;
      try discriminate H; simpl; tauto.
  - simpl. intros H.
    repeat (destruct H as [<-|H]; [reflexivity|]). destruct H.
Qed.

(** C6, as the code has it: a line is recognized as a button frame exactly
    when it is [~d~d1~...~dn~] and CRLF with every [d] a single decimal
    digit, any of 0 to 9; its fields are then those digits, at least one,
    and each parses to an integer from 0 to 9. *)
Theorem buttonLinePattern_single_digits line :
  (MatchString buttonLinePattern line = true <->
   exists d ds,
     In d ["0"; "1"; "2"; "3"; "4"; "5"; "6"; "7"; "8"; "9"]%char /\
     Forall (fun d => In d ["0"; "1"; "2"; "3"; "4"; "5"; "6"; "7"; "8"; "9"]%char) ds /\
     line = buttonLineOf d ds /\
     buttonFields line = map single (d :: ds)) /\
  (MatchString buttonLinePattern line = true ->
   Forall (fun number => 0 <= number <= 9) (numbersOf (buttonFields line))).
Proof.
  split.
  - split.
    + intros H.
      destruct (buttonLine_fields line H) as (d & ds & Hd & Hds & -> & Hf & _).
      exists d, ds. repeat split; try assumption.
      * now apply isDigit_spec.
      * eapply Forall_impl; [exact Hds|]. intros x. apply isDigit_spec.
    + intros (d & ds & Hd & Hds & -> & _).
      apply buttonLineOf_accepted.
      * now apply isDigit_spec.
      * eapply Forall_impl; [exact Hds|]. intros x. apply isDigit_spec.
  - intros H.
    destruct (buttonLine_fields line H) as (d & ds & _ & _ & _ & _ & Hn).
    exact Hn.
Qed.

(** C6 as stated fails: the button line [~2~] is accepted, its field parses
    to 2, and on a channel that stored 0 the value 2 is stored and counts as
    a press. *)
Lemma buttonLinePattern_accepts_two :
  let sio := withButtons NewSerialIO 1 [0] in
  let r := handleLine exampleThreshold workingDriver exampleConfig sio
             (lineOf "~2~") in
  MatchString buttonLinePattern (lineOf "~2~") = true /\
  buttonFields (lineOf "~2~") = ["2"] /\
  numbersOf (buttonFields (lineOf "~2~")) = [2] /\
  currentButtonValues (out_sio r) = [2] /\
  out_pressed r = [{| ButtonID := 0; PreviousValue := 0; ButtonValue := 2 |}].
Proof. vm_compute. repeat split; reflexivity. Qed.

(** ** Claims about the slider tracker *)

Lemma withSliders_same sio :
  withSliders sio (lastKnownNumSliders sio) (currentSliderPercentValues sio)
  = sio.
Proof. now destruct sio. Qed.

Lemma sliderCountRule_count n sio :
  lastKnownNumSliders (sliderCountRule n sio) = Z.of_nat n.
Proof.
  unfold sliderCountRule.
  destruct (Z.eqb_spec (Z.of_nat n) (lastKnownNumSliders sio));
    simpl; congruence.
Qed.

Lemma sliderCountRule_changed n sio :
  Z.of_nat n <> lastKnownNumSliders sio ->
  sliderCountRule n sio = withSliders sio (Z.of_nat n) (replicate n unset).
Proof.
  intros H. unfold sliderCountRule.
  now destruct (Z.eqb_spec (Z.of_nat n) (lastKnownNumSliders sio)).
Qed.

Lemma sliderCountRule_same n sio :
  Z.of_nat n = lastKnownNumSliders sio -> sliderCountRule n sio = sio.
Proof.
  intros H. unfold sliderCountRule.
  now destruct (Z.eqb_spec (Z.of_nat n) (lastKnownNumSliders sio)).
Qed.

Lemma length_movesFrom scalars : forall idx,
  length (movesFrom idx scalars) = length scalars.
Proof.
  induction scalars as [|s scalars IH]; intros idx; simpl;
    [reflexivity | now rewrite IH].
Qed.

Lemma movesFrom_ids scalars : forall idx,
  map SliderID (movesFrom idx scalars)
  = map Z.of_nat (seq idx (length scalars)).
Proof.
  induction scalars as [|s scalars IH]; intros idx; simpl;
    [reflexivity | now rewrite IH].
Qed.

Lemma movesFrom_values scalars : forall idx,
  map PercentValue (movesFrom idx scalars) = scalars.
Proof.
  induction scalars as [|s scalars IH]; intros idx; simpl;
    [reflexivity | now rewrite IH].
Qed.

(** A slider frame whose channel count is not the remembered one, from any
    stored values whatever. *)
Lemma handleLine_count_change threshold drv cfg sio line :
  (forall l, threshold l < 1)%Q ->
  MatchString buttonLinePattern line = false ->
  MatchString expectedLinePattern line = true ->
  Z.of_nat (length (sliderFields line)) <> lastKnownNumSliders sio ->
  Forall (fun number => number <= 1023) (numbersOf (sliderFields line)) ->
  let scalars := map (normalizedScalar cfg) (numbersOf (sliderFields line)) in
  handleLine threshold drv cfg sio line =
  {| out_sio := withSliders sio (Z.of_nat (length (sliderFields line))) scalars;
     out_moveEvents := movesFrom 0 scalars;
     out_sent := deliver (sliderMoveConsumers sio) (movesFrom 0 scalars);
     out_buttonEvents := []; out_pressed := []; out_launched := [];
     out_exit := Returned |}.
Proof.
  intros Hthr Hb Hs Hn Hnum scalars. unfold handleLine.
  rewrite Hb, Hs. cbn [negb].
  rewrite sliderCountRule_changed by exact Hn.
  cbn [currentSliderPercentValues withSliders].
  pose proof (sliderLoop_unset threshold cfg (sliderFields line) Hthr [] []
                Hnum) as Hloop.
  cbn [length app] in Hloop. rewrite Hloop. reflexivity.
Qed.

(** C4: a slider frame of N channels, every raw value at most 1023, met by
    a tracker that remembers another channel count: the count rule resets
    every stored value to the unset sentinel -1.0 and remembers N; the frame
    then emits exactly N events, one per channel in channel order, each with
    the normalized value of its channel, which is also what is stored. *)
Theorem count_change_resynchronizes threshold drv cfg sio line :
  (forall l, threshold l < 1)%Q ->
  MatchString buttonLinePattern line = false ->
  MatchString expectedLinePattern line = true ->
  let fields := sliderFields line in
  let N := length fields in
  Z.of_nat N <> lastKnownNumSliders sio ->
  Forall (fun number => number <= 1023) (numbersOf fields) ->
  let r := handleLine threshold drv cfg sio line in
  currentSliderPercentValues (sliderCountRule N sio) = replicate N unset /\
  lastKnownNumSliders (sliderCountRule N sio) = Z.of_nat N /\
  lastKnownNumSliders (out_sio r) = Z.of_nat N /\
  length (out_moveEvents r) = N /\
  map SliderID (out_moveEvents r) = map Z.of_nat (seq 0 N) /\
  map PercentValue (out_moveEvents r)
    = map (normalizedScalar cfg) (numbersOf fields) /\
  currentSliderPercentValues (out_sio r)
    = map (normalizedScalar cfg) (numbersOf fields) /\
  out_exit r = Returned.
Proof.
  intros Hthr Hb Hs fields N Hn Hnum r. subst r.
  rewrite (handleLine_count_change threshold drv cfg sio line Hthr Hb Hs Hn Hnum).
  fold fields. fold N. cbn [out_sio out_moveEvents out_exit].
  rewrite (sliderCountRule_changed N sio Hn).
  cbn [currentSliderPercentValues lastKnownNumSliders withSliders].
  assert (HN : length (map (normalizedScalar cfg) (numbersOf fields)) = N).
  { unfold numbersOf. now rewrite !length_map. }
  repeat split.
  - now rewrite length_movesFrom.
  - now rewrite movesFrom_ids, HN.
  - apply movesFrom_values.
Qed.

Lemma count_change_resynchronizes_witness :
  let r := handleLine exampleThreshold workingDriver exampleConfig
             establishedSerialIO (lineOf "0|512|1023|256") in
  lastKnownNumSliders establishedSerialIO = 2 /\
  lastKnownNumSliders (out_sio r) = 4 /\
  length (out_moveEvents r) = 4%nat /\
  map SliderID (out_moveEvents r) = [0; 1; 2; 3] /\
  out_exit r = Returned.
Proof.
  intros r.
  assert (Hthr : (forall l, exampleThreshold l < 1)%Q)
    by (intros []; reflexivity).
  pose proof (count_change_resynchronizes exampleThreshold workingDriver
                exampleConfig establishedSerialIO (lineOf "0|512|1023|256")
                Hthr eq_refl eq_refl) as H.
  cbv zeta in H.
  assert (Hn : Z.of_nat (length (sliderFields (lineOf "0|512|1023|256")))
               <> lastKnownNumSliders establishedSerialIO)
    by (vm_compute; discriminate).
  assert (Hnum : Forall (fun number => number <= 1023)
                   (numbersOf (sliderFields (lineOf "0|512|1023|256"))))
    by (vm_compute; repeat constructor; discriminate).
  destruct (H Hn Hnum) as (_ & _ & H3 & H4 & H5 & _ & _ & H8).
  split; [reflexivity|]. split; [exact H3|]. split; [exact H4|].
  split; [exact H5 | exact H8].
Defined.

(** C5: the same slider frame handled twice in a row, under one
    configuration: the second time no event is emitted, none is sent, and
    the tracker is left exactly as the first time left it. *)
Theorem same_frame_twice_is_idempotent threshold drv cfg sio line :
  (forall l, 0 <= threshold l)%Q ->
  MatchString buttonLinePattern line = false ->
  MatchString expectedLinePattern line = true ->
  let first := handleLine threshold drv cfg sio line in
  let second := handleLine threshold drv cfg (out_sio first) line in
  out_moveEvents second = [] /\
  out_sent second = [] /\
  currentSliderPercentValues (out_sio second)
    = currentSliderPercentValues (out_sio first) /\
  out_sio second = out_sio first.
Proof.
  intros Hthr Hb Hs first second. subst first second.
  unfold handleLine. rewrite Hb, Hs. cbn [negb].
  set (fields := sliderFields line).
  set (sio1 := sliderCountRule (length fields) sio).
  destruct (sliderLoop threshold cfg 0 fields
              (currentSliderPercentValues sio1) [])
    as [[values evs] e] eqn:Hloop.
  assert (Hsio : forall ex,
    out_sio (match ex with
             | LoopDone =>
                 {| out_sio := withSliders sio1 (lastKnownNumSliders sio1) values;
                    out_moveEvents := evs;
                    out_sent := deliver
                      (sliderMoveConsumers
                         (withSliders sio1 (lastKnownNumSliders sio1) values))
                      evs;
                    out_buttonEvents := []; out_pressed := [];
                    out_launched := []; out_exit := Returned |}
             | LoopReturn =>
                 {| out_sio := withSliders sio1 (lastKnownNumSliders sio1) values;
                    out_moveEvents := evs; out_sent := [];
                    out_buttonEvents := []; out_pressed := [];
                    out_launched := []; out_exit := Returned |}
             | LoopPanic p =>
                 {| out_sio := withSliders sio1 (lastKnownNumSliders sio1) values;
                    out_moveEvents := evs; out_sent := [];
                    out_buttonEvents := []; out_pressed := [];
                    out_launched := []; out_exit := Panicked p |}
             end)
    = withSliders sio1 (lastKnownNumSliders sio1) values)
    by (intros []; reflexivity).
  rewrite Hsio.
  set (sio2 := withSliders sio1 (lastKnownNumSliders sio1) values).
  assert (Hsame : sliderCountRule (length fields) sio2 = sio2).
  { apply sliderCountRule_same. unfold sio2, sio1. simpl.
    now rewrite sliderCountRule_count. }
  rewrite Hsame.
  change (currentSliderPercentValues sio2) with values.
  rewrite (sliderLoop_again threshold cfg fields Hthr _ _ _ _ _ _ Hloop []).
  assert (Hback : withSliders sio2 (lastKnownNumSliders sio2) values = sio2)
    by (apply withSliders_same).
  rewrite Hback.
  destruct e; cbn [out_moveEvents out_sent out_sio]; rewrite ?deliver_nil;
    repeat split; reflexivity.
Qed.

Lemma same_frame_twice_is_idempotent_witness :
  let first := handleLine exampleThreshold workingDriver exampleConfig
                 establishedSerialIO (lineOf "100|900") in
  let second := handleLine exampleThreshold workingDriver exampleConfig
                  (out_sio first) (lineOf "100|900") in
  length (out_moveEvents first) = 2%nat /\
  out_moveEvents second = [] /\
  out_sent second = [] /\
  currentSliderPercentValues (out_sio second)
    = currentSliderPercentValues (out_sio first) /\
  out_sio second = out_sio first.
Proof.
  intros first second.
  assert (Hthr : (forall l, 0 <= exampleThreshold l)%Q)
    by (intros []; discriminate).
  split; [vm_compute; reflexivity|].
  exact (same_frame_twice_is_idempotent exampleThreshold workingDriver
           exampleConfig establishedSerialIO (lineOf "100|900")
           Hthr eq_refl eq_refl).
Defined.

(** The guard of line 451, the part of C2 that holds: a slider line whose
    first number exceeds 1023 emits no event and sends none, and what it
    leaves is the tracker after the channel-count rule; so with the
    remembered count equal to the line's, nothing is changed at all. *)
Lemma first_value_guard_discards_events threshold drv cfg sio line f rest :
  MatchString buttonLinePattern line = false ->
  MatchString expectedLinePattern line = true ->
  sliderFields line = f :: rest ->
  1023 < fst (Atoi f) ->
  let r := handleLine threshold drv cfg sio line in
  out_moveEvents r = [] /\ out_sent r = [] /\ out_exit r = Returned /\
  out_sio r = sliderCountRule (length (f :: rest)) sio /\
  (Z.of_nat (length (f :: rest)) = lastKnownNumSliders sio -> out_sio r = sio).
Proof.
  intros Hb Hs Hf Hgt r. subst r. unfold handleLine.
  rewrite Hb, Hs, Hf. cbn [negb].
  rewrite (sliderLoop_guard threshold cfg f rest _ [] Hgt).
  cbn [out_moveEvents out_sent out_exit out_sio].
  rewrite withSliders_same. repeat split.
  intros Hsame. now apply sliderCountRule_same.
Qed.

(** C2 at the torn line of the source comment, met by a tracker that
    remembers two channels at 0.50: no event is emitted, yet the remembered
    count becomes 5 and the stored values become five unset sentinels. *)
Theorem torn_first_value_resets_tracker threshold drv cfg :
  let line := lineOf "4558|925|41|643|220" in
  let r := handleLine threshold drv cfg establishedSerialIO line in
  MatchString buttonLinePattern line = false /\
  MatchString expectedLinePattern line = true /\
  numbersOf (sliderFields line) = [4558; 925; 41; 643; 220] /\
  out_moveEvents r = [] /\
  lastKnownNumSliders establishedSerialIO = 2 /\
  currentSliderPercentValues establishedSerialIO = [1 # 2; 1 # 2]%Q /\
  lastKnownNumSliders (out_sio r) = 5 /\
  currentSliderPercentValues (out_sio r) = replicate 5 unset.
Proof.
  intros line r.
  assert (Hb : MatchString buttonLinePattern line = false)
    by (vm_compute; reflexivity).
  assert (Hs : MatchString expectedLinePattern line = true)
    by (vm_compute; reflexivity).
  assert (Hf : sliderFields line = ["4558"; "925"; "41"; "643"; "220"])
    by (vm_compute; reflexivity).
  destruct (first_value_guard_discards_events threshold drv cfg
              establishedSerialIO line _ _ Hb Hs Hf)
    as (Hev & _ & _ & Hsio & _); [vm_compute; reflexivity|].
  fold r in Hev, Hsio. rewrite Hsio, Hf.
  repeat split; try assumption; vm_compute; reflexivity.
Qed.

(** C7: the button line [~0~1~0~] (CRLF after it) is a button frame and
    parses to the values 0, 1, 0, which a new tracker stores; the slider line
    [512|1023|0] (CRLF after it) is a slider frame and parses to the raw
    values 512, 1023, 0, which without inversion normalize to 0.50, 1.00 and
    0.00, the values a new tracker emits and stores. *)
Theorem round_trip_examples threshold drv cfg :
  (forall l, threshold l < 1)%Q ->
  config.InvertSliders cfg = false ->
  let buttons := handleLine threshold drv cfg NewSerialIO (lineOf "~0~1~0~") in
  let sliders := handleLine threshold drv cfg NewSerialIO (lineOf "512|1023|0") in
  MatchString buttonLinePattern (lineOf "~0~1~0~") = true /\
  numbersOf (buttonFields (lineOf "~0~1~0~")) = [0; 1; 0] /\
  currentButtonValues (out_sio buttons) = [0; 1; 0] /\
  MatchString buttonLinePattern (lineOf "512|1023|0") = false /\
  MatchString expectedLinePattern (lineOf "512|1023|0") = true /\
  numbersOf (sliderFields (lineOf "512|1023|0")) = [512; 1023; 0] /\
  map (normalizedScalar cfg) [512; 1023; 0] = [1 # 2; 1; 0]%Q /\
  map PercentValue (out_moveEvents sliders) = [1 # 2; 1; 0]%Q /\
  currentSliderPercentValues (out_sio sliders) = [1 # 2; 1; 0]%Q.
Proof.
  intros Hthr Hinv buttons sliders.
  assert (Hnorm : map (normalizedScalar cfg) [512; 1023; 0] = [1 # 2; 1; 0]%Q).
  { unfold normalizedScalar. rewrite Hinv. vm_compute. reflexivity. }
  assert (Hb : MatchString buttonLinePattern (lineOf "512|1023|0") = false)
    by (vm_compute; reflexivity).
  assert (Hs : MatchString expectedLinePattern (lineOf "512|1023|0") = true)
    by (vm_compute; reflexivity).
  assert (Hraw : numbersOf (sliderFields (lineOf "512|1023|0"))
                 = [512; 1023; 0]) by (vm_compute; reflexivity).
  split; [vm_compute; reflexivity|].
  split; [vm_compute; reflexivity|].
  split; [vm_compute; reflexivity|].
  split; [exact Hb|]. split; [exact Hs|]. split; [exact Hraw|].
  split; [exact Hnorm|].
  subst sliders.
  rewrite (handleLine_count_change threshold drv cfg NewSerialIO
             (lineOf "512|1023|0") Hthr Hb Hs).
  - cbn [out_moveEvents out_sio currentSliderPercentValues withSliders].
    rewrite movesFrom_values, Hraw, Hnorm. split; reflexivity.
  - vm_compute. discriminate.
  - rewrite Hraw. repeat constructor; discriminate.
Qed.

Lemma round_trip_examples_witness :
  let buttons := handleLine exampleThreshold workingDriver exampleConfig
                   NewSerialIO (lineOf "~0~1~0~") in
  let sliders := handleLine exampleThreshold workingDriver exampleConfig
                   NewSerialIO (lineOf "512|1023|0") in
  currentButtonValues (out_sio buttons) = [0; 1; 0] /\
  map PercentValue (out_moveEvents sliders) = [1 # 2; 1; 0]%Q /\
  currentSliderPercentValues (out_sio sliders) = [1 # 2; 1; 0]%Q.
Proof.
  intros buttons sliders.
  assert (Hthr : (forall l, exampleThreshold l < 1)%Q)
    by (intros []; reflexivity).
  destruct (round_trip_examples exampleThreshold workingDriver exampleConfig
              Hthr eq_refl)
    as (_ & _ & H3 & _ & _ & _ & _ & H8 & H9).
  split; [exact H3|]. split; [exact H8 | exact H9].
Defined.

(** ** The stored scalars *)

Lemma handleButtons_sliders drv cfg sio line :
  currentSliderPercentValues (out_sio (handleButtons drv cfg sio line))
  = currentSliderPercentValues sio.
Proof.
  unfold handleButtons.
  destruct (buttonLoop _ _ _ _) as [[values evs] e].
  assert (H : currentSliderPercentValues
                (buttonCountRule (length (buttonFields line)) sio)
              = currentSliderPercentValues sio)
    by (unfold buttonCountRule; now destruct (negb _)).
  destruct e; [destruct (pressLoop drv cfg evs) as [[pressed launched] e']| |];
    exact H.
Qed.

Lemma handleLine_stored threshold drv cfg sio line :
  Forall scalarStored (currentSliderPercentValues sio) ->
  Forall scalarStored
    (currentSliderPercentValues (out_sio (handleLine threshold drv cfg sio line))).
Proof.
  intros Hinv. unfold handleLine.
  destruct (MatchString buttonLinePattern line).
  - now rewrite handleButtons_sliders.
  - destruct (negb _); [exact Hinv|].
    set (sio1 := sliderCountRule _ sio).
    assert (H1 : Forall scalarStored (currentSliderPercentValues sio1)).
    { unfold sio1, sliderCountRule. destruct (negb _); [|exact Hinv].
      simpl. apply Forall_replicate. now left. }
    destruct (sliderLoop _ _ _ _ _ _) as [[values evs] e] eqn:Hloop.
    pose proof (sliderLoop_stored _ _ _ _ _ _ _ _ _ Hloop H1) as H.
    destruct e; exact H.
Qed.

Lemma Start_sliders host cfg sio :
  currentSliderPercentValues (fst (Start host cfg sio))
  = currentSliderPercentValues sio.
Proof.
  unfold Start. destruct (connected sio); [reflexivity|].
  now destruct (Open host _).
Qed.

Lemma Stop_sliders sio :
  currentSliderPercentValues (Stop sio) = currentSliderPercentValues sio.
Proof. unfold Stop. now destruct (connected sio). Qed.

Lemma onConfigReloaded_sliders host cfg sio :
  currentSliderPercentValues (reload_sio (onConfigReloaded host cfg sio))
  = currentSliderPercentValues sio.
Proof.
  unfold onConfigReloaded.
  destruct (connectionParamsChanged cfg sio); [|reflexivity].
  pose proof (Start_sliders host cfg (Stop sio)) as H.
  destruct (Start host cfg (Stop sio)) as [started err].
  simpl in *. now rewrite H, Stop_sliders.
Qed.

Lemma run_stored threshold inputs : forall sio,
  Forall scalarStored (currentSliderPercentValues sio) ->
  Forall scalarStored
    (currentSliderPercentValues (fst (run threshold inputs sio))).
Proof.
  induction inputs as [|[drv cfg line|host cfg|] inputs IH]; intros sio Hinv;
    cbn [run].
  - exact Hinv.
  - pose proof (handleLine_stored threshold drv cfg sio line Hinv).
    destruct (out_exit _); [now apply IH | assumption].
  - apply IH. now rewrite onConfigReloaded_sliders.
  - apply IH. exact Hinv.
Qed.

(** C10: after any sequence of lines handled, configuration changes and
    subscriptions, from a new [SerialIO], every stored slider value is the
    unset sentinel -1.0 or a scalar of [0.0, 1.0]. *)
Theorem stored_scalars_unset_or_normalized threshold inputs :
  Forall (fun v => v = (-1)%Q \/ (0 <= v <= 1)%Q)
    (currentSliderPercentValues (fst (run threshold inputs NewSerialIO))).
Proof. apply (run_stored threshold inputs NewSerialIO). constructor. Qed.

(** * More of the package *)

(** ** The line reader *)

Lemma ReadString_ok stream : forall line rest,
  ReadString stream LF = (line, rest, false) ->
  stream = line +:+ rest /\ isLine line.
Proof.
  induction stream as [|c stream IH]; intros line rest; cbn [ReadString].
  - discriminate.
  - destruct (Ascii.eqb_spec c LF) as [->|NE].
    + intros [= <- <-]. split; [reflexivity|].
      exists EmptyString. split; [reflexivity | intros []].
    + destruct (ReadString stream LF) as [[line' rest'] err].
      intros [= <- <- ->].
      destruct (IH line' rest' eq_refl) as [-> (body & -> & Hno)].
      split; [reflexivity|].
      exists (String c body). split; [reflexivity|].
      simpl. intros [E|E]; [now apply NE | now apply Hno].
Qed.

Lemma ReadString_err stream : forall line rest,
  ReadString stream LF = (line, rest, true) ->
  ~ In LF (list_ascii_of_string stream).
Proof.
  induction stream as [|c stream IH]; intros line rest; cbn [ReadString].
  - intros _ [].
  - destruct (Ascii.eqb_spec c LF) as [->|NE]; [discriminate|].
    destruct (ReadString stream LF) as [[line' rest'] err].
    intros [= <- <- ->]. simpl.
    intros [E|E]; [now apply NE | now apply (IH line' rest' eq_refl)].
Qed.

Lemma ReadString_isLine body rest :
  ~ In LF (list_ascii_of_string body) ->
  ReadString ((body +:+ String LF EmptyString) +:+ rest) LF
  = (body +:+ String LF EmptyString, rest, false).
Proof.
  induction body as [|c body IH]; intros Hno.
  - reflexivity.
  - rewrite !append_cons. cbn [ReadString].
    destruct (Ascii.eqb_spec c LF) as [->|NE].
    + exfalso. apply Hno. now left.
    + rewrite IH; [reflexivity|].
      intros H. apply Hno. now right.
Qed.

Lemma ReadString_no_LF tail :
  ~ In LF (list_ascii_of_string tail) ->
  snd (ReadString tail LF) = true.
Proof.
  induction tail as [|c tail IH]; intros Hno; cbn [ReadString].
  - reflexivity.
  - destruct (Ascii.eqb_spec c LF) as [->|NE].
    + exfalso. apply Hno. now left.
    + destruct (ReadString tail LF) as [[line' rest'] err] eqn:E.
      simpl in *. apply IH. intros H. apply Hno. now right.
Qed.

Lemma isLine_length line : isLine line -> (0 < String.length line)%nat.
Proof.
  intros (body & -> & _). rewrite length_append. simpl. lia.
Qed.

(** The fuel of [readLine] is never used up. *)
Lemma readLineFuel_enough fuel : forall fuel' stream,
  (String.length stream < fuel)%nat -> (String.length stream < fuel')%nat ->
  readLineFuel fuel stream = readLineFuel fuel' stream.
Proof.
  induction fuel as [|fuel IH]; intros [|fuel'] stream H H'; try lia.
  cbn [readLineFuel].
  destruct (ReadString stream LF) as [[line rest] err] eqn:E.
  fold LF. rewrite E. destruct err; [reflexivity|].
  destruct (ReadString_ok stream line rest E) as [-> Hline].
  apply isLine_length in Hline. rewrite length_append in H, H'.
  f_equal. apply IH; lia.
Qed.

(** [readLine] as the loop it is: a read that fails ends it, a line read is
    delivered and the loop goes on with what the reader still holds. *)
Lemma readLine_unfold stream :
  readLine stream =
  match ReadString stream LF with
  | (line, rest, false) => line :: readLine rest
  | (_, _, true) => []
  end.
Proof.
  assert (Hstep : forall fuel s,
    readLineFuel (S fuel) s =
    match ReadString s LF with
    | (line, rest, false) => line :: readLineFuel fuel rest
    | (_, _, true) => []
    end) by reflexivity.
  unfold readLine. rewrite Hstep.
  destruct (ReadString stream LF) as [[line rest] err] eqn:E.
  destruct err; [reflexivity|].
  destruct (ReadString_ok stream line rest E) as [-> Hline].
  apply isLine_length in Hline. rewrite length_append.
  f_equal. apply readLineFuel_enough; lia.
Qed.

Lemma readLine_joinLines lines : forall tail,
  Forall isLine lines -> ~ In LF (list_ascii_of_string tail) ->
  readLine (joinLines lines +:+ tail) = lines.
Proof.
  induction lines as [|line lines IH]; intros tail Hlines Htail.
  - cbn [joinLines fold_right]. rewrite append_nil_l, readLine_unfold.
    pose proof (ReadString_no_LF tail Htail) as H.
    destruct (ReadString tail LF) as [[l r] err]. simpl in H. now rewrite H.
  - inversion Hlines as [|? ? (body & -> & Hbody) Hrest]; subst.
    cbn [joinLines fold_right]. fold (joinLines lines).
    rewrite append_assoc, readLine_unfold, ReadString_isLine by exact Hbody.
    now rewrite IH.
Qed.

Lemma readLine_split stream :
  exists tail,
    stream = joinLines (readLine stream) +:+ tail /\
    ~ In LF (list_ascii_of_string tail) /\
    Forall isLine (readLine stream).
Proof.
  remember (String.length stream) as n eqn:En.
  revert stream En. induction n as [n IH] using lt_wf_ind. intros stream En.
  rewrite readLine_unfold.
  destruct (ReadString stream LF) as [[line rest] err] eqn:E.
  destruct err.
  - exists stream. split; [reflexivity|]. split; [|constructor].
    eapply ReadString_err; eauto.
  - destruct (ReadString_ok stream line rest E) as [-> Hline].
    pose proof (isLine_length line Hline) as Hlen.
    rewrite length_append in En.
    destruct (IH (String.length rest) ltac:(lia) rest eq_refl)
      as (tail & Hs & Htail & Hl).
    exists tail. split; [|split; [exact Htail | constructor; assumption]].
    cbn [joinLines fold_right]. fold (joinLines (readLine rest)).
    rewrite append_assoc. now rewrite <- Hs.
Qed.

(** X1: the reader cuts the byte stream after every line feed and nowhere
    else: the lines it delivers are exactly the pieces that end with their
    only line feed, in order, and what follows the last line feed when the
    read fails is dropped. *)
Theorem readLine_cuts_at_line_feeds stream lines :
  readLine stream = lines <->
  exists tail,
    stream = joinLines lines +:+ tail /\
    ~ In LF (list_ascii_of_string tail) /\
    Forall isLine lines.
Proof.
  split.
  - intros <-. apply readLine_split.
  - intros (tail & -> & Htail & Hlines). now apply readLine_joinLines.
Qed.

(** ** The button map *)

Lemma buttonMapFromConfigs_snoc userMapping buttonIdxString targets :
  buttonMapFromConfigs (userMapping ++ [(buttonIdxString, targets)]) =
  buttonMap_set (buttonMapFromConfigs userMapping)
    (fst (Atoi buttonIdxString))
    (FilterString targets (fun s => negb (String.eqb s ""))).
Proof. unfold buttonMapFromConfigs. now rewrite fold_left_app. Qed.

Lemma FilterString_nonempty targets :
  ~ In EmptyString (FilterString targets (fun s => negb (String.eqb s ""))).
Proof.
  unfold FilterString. intros H. apply filter_In in H as [_ H].
  discriminate H.
Qed.

(** X2: a lookup after a store gives back what was stored and says it is
    there; storing under one button leaves every other button as it was; a
    button never stored, in a new map or any other, gives the empty list and
    says it is missing. *)
Theorem buttonMap_get_set m key value :
  buttonMap_get (buttonMap_set m key value) key = (value, true) /\
  (forall other, other <> key ->
     buttonMap_get (buttonMap_set m key value) other = buttonMap_get m other) /\
  buttonMap_get newButtonMap key = ([], false) /\
  (m !! key = None -> buttonMap_get m key = ([], false)).
Proof.
  unfold buttonMap_get, buttonMap_set, newButtonMap.
  split; [|split; [|split]].
  - now rewrite lookup_insert_eq.
  - intros other Hne. now rewrite lookup_insert_ne.
  - now rewrite lookup_empty.
  - now intros ->.
Qed.

Lemma buttonMapFromConfigs_entries userMapping buttonIdx :
  match buttonMapFromConfigs userMapping !! buttonIdx with
  | Some stored =>
      ~ In EmptyString stored /\
      exists buttonIdxString targets,
        In (buttonIdxString, targets) userMapping /\
        fst (Atoi buttonIdxString) = buttonIdx /\
        stored = FilterString targets (fun s => negb (String.eqb s ""))
  | None =>
      forall buttonIdxString targets,
        In (buttonIdxString, targets) userMapping ->
        fst (Atoi buttonIdxString) <> buttonIdx
  end.
Proof.
  induction userMapping as [|[key targets] userMapping IH] using rev_ind.
  - unfold buttonMapFromConfigs, newButtonMap. cbn [fold_left].
    rewrite lookup_empty. intros ? ? [].
  - rewrite buttonMapFromConfigs_snoc. unfold buttonMap_set.
    destruct (decide (fst (Atoi key) = buttonIdx)) as [E|NE].
    + rewrite E, lookup_insert_eq. split; [apply FilterString_nonempty|].
      exists key, targets. split; [|auto].
      apply in_or_app. right. now left.
    + rewrite lookup_insert_ne by exact NE.
      destruct (buttonMapFromConfigs userMapping !! buttonIdx) as [stored|].
      * destruct IH as (Hne & k & t & Hin & Hk & Hs).
        split; [exact Hne|]. exists k, t. split; [|auto].
        apply in_or_app. now left.
      * intros k t Hin. apply in_app_or in Hin as [Hin|[[= <- <-]|[]]].
        -- now apply (IH k t).
        -- exact NE.
Qed.

(** X3: whatever the user mapping and the order its entries are visited
    in, a button of the resulting map holds the targets of a user entry whose
    key parses to that button, without the empty ones and in their order; no
    empty target is ever stored; and a button no key parses to is missing. *)
Theorem buttonMapFromConfigs_lookup userMapping buttonIdx :
  match buttonMapFromConfigs userMapping !! buttonIdx with
  | Some stored =>
      ~ In EmptyString stored /\
      exists buttonIdxString targets,
        In (buttonIdxString, targets) userMapping /\
        fst (Atoi buttonIdxString) = buttonIdx /\
        stored = FilterString targets (fun s => negb (String.eqb s ""))
  | None =>
      forall buttonIdxString targets,
        In (buttonIdxString, targets) userMapping ->
        fst (Atoi buttonIdxString) <> buttonIdx
  end.
Proof. apply buttonMapFromConfigs_entries. Qed.

Lemma buttonMapFromConfigs_distinct userMapping :
  NoDup (map (fun entry => fst (Atoi (fst entry))) userMapping) ->
  forall buttonIdxString targets,
    In (buttonIdxString, targets) userMapping ->
    buttonMapFromConfigs userMapping !! fst (Atoi buttonIdxString)
    = Some (FilterString targets (fun s => negb (String.eqb s ""))).
Proof.
  induction userMapping as [|[key targets] userMapping IH] using rev_ind;
    intros Hnd k t Hin; [destruct Hin|].
  rewrite map_app in Hnd. apply NoDup_app in Hnd as (Hnd & Hdis & _).
  rewrite buttonMapFromConfigs_snoc. unfold buttonMap_set.
  apply in_app_or in Hin as [Hin|[[= <- <-]|[]]].
  - rewrite lookup_insert_ne; [now apply IH|].
    intros E. apply (Hdis (fst (Atoi k))).
    + apply list_elem_of_In.
      change (fst (Atoi k)) with ((fun entry => fst (Atoi (fst entry))) (k, t)).
      now apply in_map.
    + rewrite <- E. simpl. now left.
  - now rewrite lookup_insert_eq.
Qed.

(** X4: when no two keys of the user mapping parse to the same button, the
    resulting map does not depend on the order the entries are visited in:
    every entry is found under its button with its non-empty targets. *)
Theorem buttonMapFromConfigs_order_independent userMapping visited :
  NoDup (map (fun entry => fst (Atoi (fst entry))) userMapping) ->
  Permutation userMapping visited ->
  buttonMapFromConfigs visited = buttonMapFromConfigs userMapping /\
  forall buttonIdxString targets,
    In (buttonIdxString, targets) userMapping ->
    buttonMap_get (buttonMapFromConfigs visited) (fst (Atoi buttonIdxString))
    = (FilterString targets (fun s => negb (String.eqb s "")), true).
Proof.
  intros Hnd Hperm.
  assert (Hnd' : NoDup (map (fun entry => fst (Atoi (fst entry))) visited)).
  { rewrite <- (Permutation_map (fun entry => fst (Atoi (fst entry))) Hperm).
    exact Hnd. }
  assert (Hget : forall k t, In (k, t) userMapping ->
            buttonMapFromConfigs visited !! fst (Atoi k)
            = Some (FilterString t (fun s => negb (String.eqb s "")))).
  { intros k t Hin. apply buttonMapFromConfigs_distinct; [exact Hnd'|].
    eapply Permutation_in; eauto. }
  split.
  - apply map_eq. intros i.
    pose proof (buttonMapFromConfigs_entries userMapping i) as H.
    destruct (buttonMapFromConfigs userMapping !! i) as [stored|] eqn:E.
    + destruct H as (_ & k & t & Hin & <- & ->). now apply Hget.
    + pose proof (buttonMapFromConfigs_entries visited i) as H'.
      destruct (buttonMapFromConfigs visited !! i) as [stored|]; [|reflexivity].
      destruct H' as (_ & k & t & Hin & Hk & _).
      exfalso. apply (H k t); [|exact Hk].
      eapply Permutation_in; [symmetry|]; eauto.
  - intros k t Hin. unfold buttonMap_get. now rewrite (Hget k t Hin).
Qed.

(** X5: when two keys parse to the same button (as "3" and "03" do, or any
    two keys that are not numbers, which both parse to 0), the entry visited
    last wins, so with different targets the two visiting orders give
    different maps. *)
Theorem buttonMapFromConfigs_collision key1 targets1 key2 targets2 :
  fst (Atoi key1) = fst (Atoi key2) ->
  FilterString targets1 (fun s => negb (String.eqb s ""))
    <> FilterString targets2 (fun s => negb (String.eqb s "")) ->
  buttonMapFromConfigs [(key1, targets1); (key2, targets2)] !! fst (Atoi key1)
    = Some (FilterString targets2 (fun s => negb (String.eqb s ""))) /\
  buttonMapFromConfigs [(key2, targets2); (key1, targets1)] !! fst (Atoi key1)
    = Some (FilterString targets1 (fun s => negb (String.eqb s ""))) /\
  buttonMapFromConfigs [(key1, targets1); (key2, targets2)]
    <> buttonMapFromConfigs [(key2, targets2); (key1, targets1)].
Proof.
  intros Hk Hne.
  assert (H12 : buttonMapFromConfigs [(key1, targets1); (key2, targets2)]
                  !! fst (Atoi key1)
                = Some (FilterString targets2 (fun s => negb (String.eqb s "")))).
  { change [(key1, targets1); (key2, targets2)]
      with ([(key1, targets1)] ++ [(key2, targets2)]).
    rewrite buttonMapFromConfigs_snoc. unfold buttonMap_set.
    now rewrite Hk, lookup_insert_eq. }
  assert (H21 : buttonMapFromConfigs [(key2, targets2); (key1, targets1)]
                  !! fst (Atoi key1)
                = Some (FilterString targets1 (fun s => negb (String.eqb s "")))).
  { change [(key2, targets2); (key1, targets1)]
      with ([(key2, targets2)] ++ [(key1, targets1)]).
    rewrite buttonMapFromConfigs_snoc. unfold buttonMap_set.
    now rewrite lookup_insert_eq. }
  split; [exact H12|]. split; [exact H21|].
  intros E. rewrite E, H21 in H12. injection H12 as H12. now apply Hne.
Qed.

Lemma buttonMapFromConfigs_order_independent_witness :
  let userMapping :=
    [("3", ["VK_MEDIA_PLAY_PAUSE"; ""]); ("11", [""; "FORCE_REFRESH"])] in
  let visited :=
    [("11", [""; "FORCE_REFRESH"]); ("3", ["VK_MEDIA_PLAY_PAUSE"; ""])] in
  buttonMapFromConfigs visited = buttonMapFromConfigs userMapping /\
  buttonMap_get (buttonMapFromConfigs visited) 3
    = (["VK_MEDIA_PLAY_PAUSE"], true) /\
  buttonMap_get (buttonMapFromConfigs visited) 11
    = (["FORCE_REFRESH"], true).
Proof.
  intros userMapping visited.
  assert (Hnd : NoDup (map (fun entry => fst (Atoi (fst entry))) userMapping)).
  { apply (bool_decide_unpack _). vm_compute. exact I. }
  assert (Hperm : Permutation userMapping visited) by apply perm_swap.
  destruct (buttonMapFromConfigs_order_independent userMapping visited
              Hnd Hperm) as [Heq Hget].
  split; [exact Heq|]. split.
  - apply (Hget "3" ["VK_MEDIA_PLAY_PAUSE"; ""]). now left.
  - apply (Hget "11" [""; "FORCE_REFRESH"]). right. now left.
Defined.

Lemma buttonMapFromConfigs_collision_witness :
  buttonMapFromConfigs [("3", ["VK_VOLUME_UP"]); ("03", ["VK_VOLUME_DOWN"])]
    !! 3 = Some ["VK_VOLUME_DOWN"] /\
  buttonMapFromConfigs [("03", ["VK_VOLUME_DOWN"]); ("3", ["VK_VOLUME_UP"])]
    !! 3 = Some ["VK_VOLUME_UP"] /\
  buttonMapFromConfigs [("3", ["VK_VOLUME_UP"]); ("03", ["VK_VOLUME_DOWN"])]
    <> buttonMapFromConfigs [("03", ["VK_VOLUME_DOWN"]); ("3", ["VK_VOLUME_UP"])].
Proof.
  apply (buttonMapFromConfigs_collision "3" ["VK_VOLUME_UP"]
           "03" ["VK_VOLUME_DOWN"]).
  - reflexivity.
  - discriminate.
Defined.

(** ** The key combination of a press *)

Lemma applyToken_unknown kb conf_key :
  knownToken conf_key = false ->
  applyToken kb conf_key = (kb, Some "Key not found").
Proof.
  unfold knownToken, applyToken, kbKeySimple.
  destruct (String.eqb conf_key "FORCE_REFRESH"); [discriminate|].
  destruct (String.eqb conf_key "WIN_MIC_MUTE_TOGGLE"); [discriminate|].
  now destruct (mapIndex KEY_MAPS conf_key).
Qed.

Lemma applyToken_known kb conf_key :
  knownToken conf_key = true ->
  snd (applyToken kb conf_key) = None /\
  keybd_event.keys (fst (applyToken kb conf_key))
    = option_list (tokenKey conf_key).
Proof.
  unfold knownToken, applyToken, kbKeySimple, tokenKey.
  destruct (String.eqb conf_key "FORCE_REFRESH"); [now split|].
  destruct (String.eqb conf_key "WIN_MIC_MUTE_TOGGLE"); [now split|].
  destruct (mapIndex KEY_MAPS conf_key); [now split | discriminate].
Qed.


Lemma applyTokens_cons conf_ind conf_key rest kb :
  fst (applyTokens conf_ind (conf_key :: rest) kb)
    = fst (applyTokens (S conf_ind) rest (fst (applyToken kb conf_key))) /\
  snd (applyTokens conf_ind (conf_key :: rest) kb)
    = match snd (applyToken kb conf_key) with
      | Some _ => [(conf_ind, conf_key)]
      | None => []
      end ++ snd (applyTokens (S conf_ind) rest (fst (applyToken kb conf_key))).
Proof.
  cbn [applyTokens]. destruct (applyToken kb conf_key) as [kb1 key_err].
  cbn [fst snd].
  destruct (applyTokens (S conf_ind) rest kb1) as [kb2 invalid].
  now destruct key_err.
Qed.



Lemma applyTokens_invalid tokens : forall conf_ind kb,
  snd (applyTokens conf_ind tokens kb)
    = List.filter (fun p => negb (knownToken (snd p)))
        (indexedFrom conf_ind tokens) /\
  forall conf_ind',
    fst (applyTokens conf_ind tokens kb)
    = fst (applyTokens conf_ind' (List.filter knownToken tokens) kb).
Proof.
  induction tokens as [|t tokens IH]; intros conf_ind kb.
  - split; reflexivity.
  - destruct (applyTokens_cons conf_ind t tokens kb) as [Hf Hs].
    rewrite Hf, Hs. cbn [indexedFrom List.filter snd].
    destruct (IH (S conf_ind) (fst (applyToken kb t))) as [IHs IHf].
    destruct (knownToken t) eqn:Ht; cbn [negb].
    + destruct (applyToken_known kb t Ht) as [-> _].
      split; [exact IHs|]. intros conf_ind'.
      rewrite (proj1 (applyTokens_cons conf_ind' t _ kb)). apply IHf.
    + rewrite (applyToken_unknown kb t Ht) in *. cbn [fst snd app] in *.
      split; [now rewrite IHs | exact IHf].
Qed.

Lemma pressedButton_initialised drv cfg buttonEvent :
  keybd_event.initError drv = None ->
  press_launched (pressedButton drv cfg buttonEvent)
    = Some (fst (applyTokens 0 (tokensOf cfg buttonEvent)
                   (fst (keybd_event.NewKeyBonding drv)))) /\
  press_invalid (pressedButton drv cfg buttonEvent)
    = snd (applyTokens 0 (tokensOf cfg buttonEvent)
             (fst (keybd_event.NewKeyBonding drv))).
Proof.
  intros Hinit. unfold pressedButton, tokensOf, keybd_event.NewKeyBonding.
  rewrite Hinit. cbn [fst].
  destruct (applyTokens _ _ _) as [kb' invalid].
  now destruct (keybd_event.Launching drv kb').
Qed.


(** X7: once the key-input mechanism is initialised, the tokens a press
    logs as invalid are exactly the tokens of the button that are neither
    FORCE_REFRESH, WIN_MIC_MUTE_TOGGLE nor a name of KEY_MAPS, each with its
    position in the list; and they change nothing else: the combination
    launched is the one the list without them gives. *)
Theorem pressedButton_skips_unknown_tokens drv cfg buttonEvent :
  keybd_event.initError drv = None ->
  let tokens := tokensOf cfg buttonEvent in
  press_invalid (pressedButton drv cfg buttonEvent)
    = List.filter (fun p => negb (knownToken (snd p))) (indexedFrom 0 tokens) /\
  press_launched (pressedButton drv cfg buttonEvent)
    = Some (fst (applyTokens 0 (List.filter knownToken tokens)
                   (fst (keybd_event.NewKeyBonding drv)))).
Proof.
  intros Hinit tokens.
  destruct (pressedButton_initialised drv cfg buttonEvent Hinit) as [-> ->].
  fold tokens.
  destruct (applyTokens_invalid tokens 0 (fst (keybd_event.NewKeyBonding drv)))
    as [Hs Hf].
  split; [exact Hs|]. now rewrite (Hf 0%nat).
Qed.


Lemma pressedButton_skips_unknown_tokens_witness :
  let press := {| ButtonID := 3; PreviousValue := 0; ButtonValue := 1 |} in
  press_invalid (pressedButton workingDriver exampleConfig press)
    = [(1%nat, "NO_SUCH_KEY")] /\
  press_launched (pressedButton workingDriver exampleConfig press)
    = Some (fst (applyTokens 0 ["FORCE_REFRESH"]
                   (fst (keybd_event.NewKeyBonding workingDriver)))).
Proof.
  intros press.
  exact (pressedButton_skips_unknown_tokens workingDriver exampleConfig press
           eq_refl).
Defined.

(** ** The connection and the reload *)

Lemma Start_when_stopped host cfg sio :
  connected sio = false ->
  let opts :=
    {| serial.PortName := config.COMPort (config.ConnectionInfo cfg);
       serial.BaudRate := uint (config.BaudRate (config.ConnectionInfo cfg));
       serial.DataBits := 8;
       serial.StopBits := 1;
       serial.MinimumReadSize := uint (if Linux host then 1 else 0) |} in
  Start host cfg sio =
  (withConnection sio
     (match Open host opts with None => true | Some _ => false end) opts,
   Open host opts).
Proof.
  intros H opts. unfold Start. rewrite H. fold opts.
  now destruct (Open host opts).
Qed.

Lemma connected_Stop sio : connected (Stop sio) = false.
Proof. unfold Stop. now destruct (connected sio) eqn:E. Qed.


Lemma onConfigReloaded_forgets host cfg sio :
  lastKnownNumSliders (reload_sio (onConfigReloaded host cfg sio)) = 0 /\
  lastKnownNumButtons (reload_sio (onConfigReloaded host cfg sio)) = 0 /\
  sliderMoveConsumers (reload_sio (onConfigReloaded host cfg sio))
    = sliderMoveConsumers sio.
Proof.
  unfold onConfigReloaded.
  destruct (connectionParamsChanged cfg sio); [|now repeat split].
  rewrite (Start_when_stopped host cfg (Stop sio) (connected_Stop sio)).
  unfold Stop. now destruct (connected sio).
Qed.


(** ** A frame after the channel count changed *)

Lemma splitFrom_nonempty sep s : forall skip, splitFrom sep skip s <> [].
Proof.
  induction s as [|c s IH]; intros skip; cbn [splitFrom]; [discriminate|].
  destruct skip as [|k]; [|apply IH].
  destruct (String.prefix sep (String c s)); [discriminate|].
  now destruct (splitFrom sep 0 s).
Qed.

Lemma sliderFields_nonempty line : length (sliderFields line) <> 0%nat.
Proof.
  unfold sliderFields, Split.
  pose proof (splitFrom_nonempty "|" (TrimSuffix line CRLF) 0) as H.
  now destruct (splitFrom "|" 0 (TrimSuffix line CRLF)).
Qed.

Lemma edgesFrom_previous stored : forall new idx,
  Forall (fun e => In (PreviousValue e) stored) (edgesFrom idx stored new).
Proof.
  induction stored as [|p stored IH]; intros [|v new] idx; cbn [edgesFrom];
    try constructor.
  apply Forall_app. split.
  - destruct (p =? v); constructor; [now left | constructor].
  - eapply Forall_impl; [apply IH|]. intros e H. now right.
Qed.

Lemma edgesFrom_all stored : forall new idx,
  length stored = length new ->
  Forall2 (fun p v => p <> v) stored new ->
  length (edgesFrom idx stored new) = length new /\
  map ButtonValue (edgesFrom idx stored new) = new.
Proof.
  induction stored as [|p stored IH]; intros [|v new] idx Hlen Hne;
    try discriminate Hlen; cbn [edgesFrom]; [now split|].
  inversion Hne; subst.
  destruct (Z.eqb_spec p v) as [E|_]; [contradiction|].
  destruct (IH new (S idx)) as [Hl Hm]; [simpl in Hlen; lia | assumption|].
  simpl. now rewrite Hl, Hm.
Qed.

Lemma pressLoop_none drv cfg evs :
  Forall (fun e => risingEdge e = false) evs ->
  pressLoop drv cfg evs = ([], [], Returned).
Proof.
  induction 1 as [|e evs He _ IH]; cbn [pressLoop]; [reflexivity|].
  unfold risingEdge in He. now rewrite He.
Qed.

(** X10: a button frame whose channel count is not the remembered one (the
    first frame after a start, or after a configuration change forgot the
    count) stores its values and yields an event for every channel with
    previous value -1, and never invokes the action trigger, even for a
    button that is held down; the key-input mechanism is not used and the
    handler returns. *)
Theorem button_count_change_presses_nothing threshold drv cfg sio line :
  MatchString buttonLinePattern line = true ->
  Z.of_nat (length (buttonFields line)) <> lastKnownNumButtons sio ->
  let r := handleLine threshold drv cfg sio line in
  out_pressed r = [] /\ out_launched r = [] /\ out_exit r = Returned /\
  length (out_buttonEvents r) = length (buttonFields line) /\
  Forall (fun e => PreviousValue e = -1) (out_buttonEvents r) /\
  map ButtonValue (out_buttonEvents r) = numbersOf (buttonFields line) /\
  currentButtonValues (out_sio r) = numbersOf (buttonFields line) /\
  lastKnownNumButtons (out_sio r) = Z.of_nat (length (buttonFields line)).
Proof.
  intros Hm Hn r. subst r. rewrite (handleLine_button _ _ _ _ _ Hm).
  destruct (buttonLine_fields line Hm) as (d & ds & _ & _ & _ & _ & Hnum).
  set (fields := buttonFields line) in *.
  set (n := length fields) in *.
  assert (Hrule : buttonCountRule n sio
                  = withButtons sio (Z.of_nat n) (replicate n (-1))).
  { unfold buttonCountRule.
    now destruct (Z.eqb_spec (Z.of_nat n) (lastKnownNumButtons sio)). }
  assert (Hloop : buttonLoop 0 fields (replicate n (-1)) [] =
                  (numbersOf fields,
                   edgesFrom 0 (replicate n (-1)) (numbersOf fields),
                   LoopDone)).
  { rewrite buttonLoop_done.
    - rewrite drop_0, take_0, drop_ge, app_nil_r; [reflexivity|].
      rewrite length_replicate. simpl. lia.
    - rewrite length_replicate. simpl. lia.
    - eapply Forall_impl; [exact Hnum|]. simpl. intros; lia. }
  set (events := edgesFrom 0 (replicate n (-1)) (numbersOf fields)) in *.
  assert (Hprev : Forall (fun e => PreviousValue e = -1) events).
  { eapply Forall_impl; [apply edgesFrom_previous|].
    intros e H. apply list_elem_of_In in H.
    now apply elem_of_replicate in H as [-> _]. }
  assert (Hnone : pressLoop drv cfg events = ([], [], Returned)).
  { apply pressLoop_none. eapply Forall_impl; [exact Hprev|].
    intros e He. unfold risingEdge. now rewrite He. }
  assert (Hall : length events = length (numbersOf fields) /\
                 map ButtonValue events = numbersOf fields).
  { apply edgesFrom_all.
    - rewrite length_replicate. unfold numbersOf. now rewrite length_map.
    - apply Forall2_same_length_lookup. split.
      + rewrite length_replicate. unfold numbersOf. now rewrite length_map.
      + intros i p v Hp Hv. apply lookup_replicate in Hp as [-> _].
        rewrite Forall_forall in Hnum.
        assert (0 <= v <= 9); [|lia].
        apply Hnum. eapply list_elem_of_lookup_2; eauto. }
  unfold handleButtons. fold fields. fold n. rewrite Hrule.
  cbn [currentButtonValues withButtons lastKnownNumButtons].
  rewrite Hloop. fold events. rewrite Hnone. cbn.
  destruct Hall as [Hl Hv]. unfold numbersOf in Hl. rewrite length_map in Hl.
  repeat split; assumption.
Qed.

Lemma button_count_change_presses_nothing_witness :
  let held := lineOf "~1~0~1~" in
  let reloaded :=
    reload_sio (onConfigReloaded exampleHost exampleConfig establishedSerialIO) in
  let r := handleLine exampleThreshold noInitDriver exampleConfig reloaded held in
  out_pressed r = [] /\ out_exit r = Returned /\
  currentButtonValues (out_sio r) = [1; 0; 1].
Proof.
  intros held reloaded r.
  assert (Hm : MatchString buttonLinePattern held = true)
    by (vm_compute; reflexivity).
  assert (Hn : Z.of_nat (length (buttonFields held))
               <> lastKnownNumButtons reloaded)
    by (vm_compute; discriminate).
  destruct (button_count_change_presses_nothing exampleThreshold noInitDriver
              exampleConfig reloaded held Hm Hn)
    as (H1 & _ & H3 & _ & _ & _ & H7 & _).
  split; [exact H1|]. split; [exact H3 | exact H7].
Defined.

(** X11: after a configuration change has been handled, the next slider
    frame with raw values of at most 1023 emits one event per channel, in
    channel order, whatever the sliders were at before, and sends each of
    them to every subscriber. *)
Theorem reload_forces_slider_events threshold host drv cfg cfg' sio line :
  (forall l, threshold l < 1)%Q ->
  MatchString buttonLinePattern line = false ->
  MatchString expectedLinePattern line = true ->
  Forall (fun number => number <= 1023) (numbersOf (sliderFields line)) ->
  let reloaded := reload_sio (onConfigReloaded host cfg sio) in
  let r := handleLine threshold drv cfg' reloaded line in
  length (out_moveEvents r) = length (sliderFields line) /\
  map SliderID (out_moveEvents r)
    = map Z.of_nat (seq 0 (length (sliderFields line))) /\
  map PercentValue (out_moveEvents r)
    = map (normalizedScalar cfg') (numbersOf (sliderFields line)) /\
  out_sent r = deliver (sliderMoveConsumers sio) (out_moveEvents r) /\
  out_exit r = Returned.
Proof.
  intros Hthr Hb Hs Hnum reloaded r.
  destruct (onConfigReloaded_forgets host cfg sio) as (H0 & _ & Hc).
  fold reloaded in H0, Hc.
  assert (Hn : Z.of_nat (length (sliderFields line))
               <> lastKnownNumSliders reloaded).
  { rewrite H0. pose proof (sliderFields_nonempty line). lia. }
  subst r.
  rewrite (handleLine_count_change threshold drv cfg' reloaded line
             Hthr Hb Hs Hn Hnum).
  cbn [out_moveEvents out_sent out_exit]. rewrite Hc.
  rewrite length_movesFrom, movesFrom_ids, movesFrom_values.
  unfold numbersOf. rewrite !length_map. repeat split.
Qed.

Lemma reload_forces_slider_events_witness :
  let line := lineOf "512|512" in
  let before :=
    handleLine exampleThreshold workingDriver exampleConfig
      establishedSerialIO line in
  let reloaded :=
    reload_sio (onConfigReloaded exampleHost exampleConfig establishedSerialIO) in
  let after :=
    handleLine exampleThreshold workingDriver exampleConfig reloaded line in
  out_moveEvents before = [] /\
  length (out_moveEvents after) = 2%nat /\
  length (out_sent after) = 2%nat /\
  out_exit after = Returned.
Proof.
  intros line before reloaded after.
  assert (Hthr : (forall l, exampleThreshold l < 1)%Q)
    by (intros []; reflexivity).
  assert (Hnum : Forall (fun number => number <= 1023)
                   (numbersOf (sliderFields line)))
    by (vm_compute; repeat constructor; discriminate).
  destruct (reload_forces_slider_events exampleThreshold exampleHost
              workingDriver exampleConfig exampleConfig establishedSerialIO
              line Hthr eq_refl eq_refl Hnum)
    as (H1 & _ & _ & H4 & H5).
  split; [vm_compute; reflexivity|]. split; [exact H1|].
  split; [|exact H5].
  fold reloaded after in H4. rewrite H4. fold after in H1.
  unfold deliver. cbn [sliderMoveConsumers establishedSerialIO seq flat_map].
  now rewrite app_nil_r, length_map.
Defined.

(** ** The slider tracker, frame by frame *)

Lemma storedAfter_nil_r threshold level stored :
  storedAfter threshold level stored [] = stored.
Proof. now destruct stored. Qed.

Lemma movedFrom_nil_r threshold level idx stored :
  movedFrom threshold level idx stored [] = [].
Proof. now destruct stored. Qed.

(** The loop of [handleLine] on a frame whose first number passes the guard
    and whose channels all have a stored value. *)
Lemma sliderLoop_done threshold cfg fields : forall idx values evs,
  (idx + length fields <= length values)%nat ->
  (idx = 0%nat -> hd 0 (numbersOf fields) <= 1023) ->
  let scalars := map (normalizedScalar cfg) (numbersOf fields) in
  let level := config.NoiseReductionLevel cfg in
  sliderLoop threshold cfg idx fields values evs =
    (take idx values ++ storedAfter threshold level (drop idx values) scalars,
     evs ++ movedFrom threshold level idx (drop idx values) scalars,
     LoopDone).
Proof.
  induction fields as [|f fields IH]; intros idx values evs Hlen Hguard;
    cbn zeta.
  - cbn [numbersOf map sliderLoop].
    now rewrite storedAfter_nil_r, movedFrom_nil_r, take_drop, app_nil_r.
  - cbn [length] in Hlen. cbn [numbersOf map hd] in Hguard |- *.
    fold (numbersOf fields). cbn [sliderLoop].
    replace ((idx =? 0)%nat && (1023 <? fst (Atoi f))) with false.
    2:{ symmetry. apply andb_false_iff.
        destruct (Nat.eqb_spec idx 0) as [E|_]; [right|now left].
        apply Z.ltb_ge. auto. }
    destruct (lookup_lt_is_Some_2 values idx) as [current Hcur]; [lia|].
    rewrite Hcur, (drop_S _ _ _ Hcur). cbn [storedAfter movedFrom].
    destruct (util.SignificantlyDifferent threshold current _ _).
    + rewrite IH by (rewrite ?length_insert; lia).
      cbn zeta. rewrite !drop_insert_lt by lia.
      rewrite (take_S_r _ _ (normalizedScalar cfg (fst (Atoi f))))
        by (apply list_lookup_insert_eq; lia).
      rewrite take_insert_ge by lia.
      now rewrite <- !app_assoc.
    + rewrite IH by lia. cbn zeta.
      rewrite (take_S_r _ _ _ Hcur). now rewrite <- !app_assoc.
Qed.

Lemma movedFrom_below threshold level stored : forall scalars idx i,
  (i < idx)%nat ->
  filter (fun e => SliderID e = Z.of_nat i)
    (movedFrom threshold level idx stored scalars) = [].
Proof.
  induction stored as [|c stored IH]; intros [|s scalars] idx i Hi;
    try reflexivity.
  cbn [movedFrom]. rewrite filter_app, IH by lia.
  destruct (util.SignificantlyDifferent _ _ _ _); [|reflexivity].
  rewrite filter_cons_False; [reflexivity|]. simpl. lia.
Qed.

Lemma movedFrom_channel threshold level stored : forall scalars idx k,
  filter (fun e => SliderID e = Z.of_nat (idx + k))
    (movedFrom threshold level idx stored scalars) =
  match stored !! k, scalars !! k with
  | Some current, Some scalar =>
      if util.SignificantlyDifferent threshold current scalar level
      then [{| SliderID := Z.of_nat (idx + k); PercentValue := scalar |}]
      else []
  | _, _ => []
  end.
Proof.
  induction stored as [|c stored IH]; intros [|s scalars] idx k;
    try reflexivity.
  - destruct k; simpl; [reflexivity|]. now destruct (stored !! k).
  - cbn [movedFrom]. rewrite filter_app. destruct k as [|k].
    + rewrite Nat.add_0_r, movedFrom_below, app_nil_r by lia. simpl.
      destruct (util.SignificantlyDifferent _ _ _ _); [|reflexivity].
      now rewrite filter_cons_True.
    + replace (idx + S k)%nat with (S idx + k)%nat by lia.
      rewrite IH. simpl.
      destruct (util.SignificantlyDifferent threshold c s level);
        [|reflexivity].
      rewrite filter_cons_False; [reflexivity|]. simpl. lia.
Qed.

Lemma storedAfter_lookup threshold level stored : forall scalars k,
  storedAfter threshold level stored scalars !! k =
  match stored !! k, scalars !! k with
  | Some current, Some scalar =>
      Some (if util.SignificantlyDifferent threshold current scalar level
            then scalar else current)
  | other, _ => other
  end.
Proof.
  induction stored as [|c stored IH]; intros [|s scalars] k; try reflexivity.
  - simpl. now destruct ((c :: stored) !! k).
  - destruct k as [|k]; [reflexivity|]. simpl. apply IH.
Qed.

Lemma sliderCountRule_length n sio :
  slidersTracked sio -> n <> 0%nat ->
  length (currentSliderPercentValues (sliderCountRule n sio)) = n.
Proof.
  intros Hwf Hn. unfold sliderCountRule.
  destruct (Z.eqb_spec (Z.of_nat n) (lastKnownNumSliders sio)) as [E|NE]; simpl.
  - destruct Hwf as [H0|Hl]; lia.
  - apply length_replicate.
Qed.

(** What [handleLine] does with a slider frame that passes the guard. *)
Lemma handleLine_slider_frame threshold drv cfg sio line :
  MatchString buttonLinePattern line = false ->
  MatchString expectedLinePattern line = true ->
  slidersTracked sio ->
  hd 0 (numbersOf (sliderFields line)) <= 1023 ->
  let fields := sliderFields line in
  let rule := sliderCountRule (length fields) sio in
  let stored := currentSliderPercentValues rule in
  let scalars := map (normalizedScalar cfg) (numbersOf fields) in
  let level := config.NoiseReductionLevel cfg in
  handleLine threshold drv cfg sio line =
  {| out_sio := withSliders rule (Z.of_nat (length fields))
                  (storedAfter threshold level stored scalars);
     out_moveEvents := movedFrom threshold level 0 stored scalars;
     out_sent := deliver (sliderMoveConsumers sio)
                   (movedFrom threshold level 0 stored scalars);
     out_buttonEvents := []; out_pressed := []; out_launched := [];
     out_exit := Returned |}.
Proof.
  intros Hb Hs Hwf Hguard fields rule stored scalars level.
  unfold handleLine. rewrite Hb, Hs. cbn [negb]. fold fields. fold rule.
  fold stored.
  pose proof (sliderCountRule_length (length fields) sio Hwf
                (sliderFields_nonempty line)) as Hlen.
  fold rule in Hlen. fold stored in Hlen.
  rewrite sliderLoop_done by (auto; lia). cbn zeta.
  rewrite drop_0, take_0. cbn [app].
  fold scalars. fold level.
  assert (Hc : sliderMoveConsumers rule = sliderMoveConsumers sio)
    by (unfold rule, sliderCountRule; now destruct (negb _)).
  unfold rule at 2. rewrite sliderCountRule_count. fold rule.
  cbn [sliderMoveConsumers withSliders]. now rewrite Hc.
Qed.

(** X12: a slider frame whose first raw value is at most 1023, met by a
    tracker whose remembered count is 0 or the number of stored values: each
    channel whose new scalar differs significantly from the stored one emits
    exactly one event, with the new scalar, which is stored; every other
    channel emits none and keeps its stored value; the events are in channel
    order and each goes to every subscriber. *)
Theorem slider_frame_emits_significant_changes threshold drv cfg sio line :
  MatchString buttonLinePattern line = false ->
  MatchString expectedLinePattern line = true ->
  slidersTracked sio ->
  hd 0 (numbersOf (sliderFields line)) <= 1023 ->
  let fields := sliderFields line in
  let stored :=
    currentSliderPercentValues (sliderCountRule (length fields) sio) in
  let scalars := map (normalizedScalar cfg) (numbersOf fields) in
  let level := config.NoiseReductionLevel cfg in
  let r := handleLine threshold drv cfg sio line in
  out_exit r = Returned /\
  out_sent r = deliver (sliderMoveConsumers sio) (out_moveEvents r) /\
  StronglySorted (fun a b => SliderID a < SliderID b) (out_moveEvents r) /\
  forall channel current scalar,
    stored !! channel = Some current ->
    scalars !! channel = Some scalar ->
    if util.SignificantlyDifferent threshold current scalar level
    then
      filter (fun e => SliderID e = Z.of_nat channel) (out_moveEvents r)
        = [{| SliderID := Z.of_nat channel; PercentValue := scalar |}] /\
      currentSliderPercentValues (out_sio r) !! channel = Some scalar
    else
      filter (fun e => SliderID e = Z.of_nat channel) (out_moveEvents r) = [] /\
      currentSliderPercentValues (out_sio r) !! channel = Some current.
Proof.
  intros Hb Hs Hwf Hguard fields stored scalars level r. subst r.
  rewrite (handleLine_slider_frame threshold drv cfg sio line Hb Hs Hwf Hguard).
  fold fields. fold stored. fold scalars. fold level.
  cbn [out_exit out_sent out_moveEvents out_sio currentSliderPercentValues
       withSliders].
  split; [reflexivity|]. split; [reflexivity|]. split.
  - generalize 0%nat as idx. generalize scalars as ss.
    induction stored as [|c st IH]; intros [|s ss] idx; try constructor.
    cbn [movedFrom].
    assert (Hrest : Forall (fun e => Z.of_nat idx < SliderID e)
                      (movedFrom threshold level (S idx) st ss)).
    { clear. revert ss idx.
      induction st as [|c st IH]; intros [|s ss] idx; try constructor.
      cbn [movedFrom]. apply Forall_app. split.
      - destruct (util.SignificantlyDifferent _ _ _ _); repeat constructor.
        simpl. lia.
      - eapply Forall_impl; [apply IH|]. simpl. intros; lia. }
    destruct (util.SignificantlyDifferent _ _ _ _); cbn [app]; [|apply IH].
    constructor; [apply IH | exact Hrest].
  - intros channel current scalar Hcur Hsc.
    pose proof (movedFrom_channel threshold level stored scalars 0 channel) as E.
    rewrite Nat.add_0_l, Hcur, Hsc in E.
    rewrite E, storedAfter_lookup, Hcur, Hsc.
    destruct (util.SignificantlyDifferent _ _ _ _); now split.
Qed.

Lemma slider_frame_emits_significant_changes_witness :
  let r := handleLine exampleThreshold workingDriver exampleConfig
             establishedSerialIO (lineOf "512|1023") in
  filter (fun e => SliderID e = 1) (out_moveEvents r)
    = [{| SliderID := 1; PercentValue := 1 |}] /\
  currentSliderPercentValues (out_sio r) !! 1%nat = Some 1%Q /\
  filter (fun e => SliderID e = 0) (out_moveEvents r) = [] /\
  currentSliderPercentValues (out_sio r) !! 0%nat = Some (1 # 2)%Q.
Proof.
  intros r.
  assert (Hwf : slidersTracked establishedSerialIO) by (right; reflexivity).
  assert (Hguard : hd 0 (numbersOf (sliderFields (lineOf "512|1023"))) <= 1023)
    by (vm_compute; discriminate).
  destruct (slider_frame_emits_significant_changes exampleThreshold
              workingDriver exampleConfig establishedSerialIO
              (lineOf "512|1023") eq_refl eq_refl Hwf Hguard)
    as (_ & _ & _ & Hch).
  destruct (Hch 1%nat (1 # 2)%Q 1%Q eq_refl eq_refl) as [H1 H2].
  destruct (Hch 0%nat (1 # 2)%Q (1 # 2)%Q eq_refl eq_refl) as [H3 H4].
  split; [exact H1|]. split; [exact H2|]. split; [exact H3 | exact H4].
Defined.

(** ** No index is ever out of range *)

Lemma sliderLoop_in_range threshold cfg fields : forall idx values evs,
  (idx + length fields <= length values)%nat ->
  forall p, snd (sliderLoop threshold cfg idx fields values evs) <> LoopPanic p.
Proof.
  induction fields as [|f fields IH]; intros idx values evs Hlen p;
    cbn [sliderLoop]; [discriminate|].
  cbn [length] in Hlen.
  destruct (_ && _); [discriminate|].
  destruct (lookup_lt_is_Some_2 values idx) as [current Hcur]; [lia|].
  rewrite Hcur.
  destruct (util.SignificantlyDifferent _ _ _ _); apply IH;
    rewrite ?length_insert; lia.
Qed.

Lemma pressedButton_exit drv cfg ev :
  press_exit (pressedButton drv cfg ev) = Returned \/
  exists e, press_exit (pressedButton drv cfg ev) = Panicked (PanicErr e).
Proof.
  unfold pressedButton, keybd_event.NewKeyBonding.
  destruct (keybd_event.initError drv); [right; eauto|].
  destruct (applyTokens _ _ _) as [kb' invalid].
  destruct (keybd_event.Launching drv kb'); [right; eauto | now left].
Qed.

Lemma pressLoop_exit drv cfg evs :
  snd (pressLoop drv cfg evs) = Returned \/
  exists e, snd (pressLoop drv cfg evs) = Panicked (PanicErr e).
Proof.
  induction evs as [|ev evs IH]; cbn [pressLoop]; [now left|].
  destruct (_ && _); [|exact IH].
  destruct (pressedButton_exit drv cfg ev) as [E|[e E]]; rewrite E.
  - destruct (pressLoop drv cfg evs) as [[pressed launched] ex]. exact IH.
  - right. eauto.
Qed.

Lemma handleLine_slidersTracked threshold drv cfg sio line :
  slidersTracked sio ->
  slidersTracked (out_sio (handleLine threshold drv cfg sio line)).
Proof.
  intros Hwf. unfold handleLine.
  destruct (MatchString buttonLinePattern line).
  - unfold slidersTracked. rewrite handleButtons_sliders.
    assert (H : lastKnownNumSliders (out_sio (handleButtons drv cfg sio line))
                = lastKnownNumSliders sio); [|now rewrite H].
    unfold handleButtons.
    destruct (buttonLoop _ _ _ _) as [[values evs] e].
    assert (H : lastKnownNumSliders
                  (buttonCountRule (length (buttonFields line)) sio)
                = lastKnownNumSliders sio)
      by (unfold buttonCountRule; now destruct (negb _)).
    destruct e; [destruct (pressLoop drv cfg evs) as [[pressed launched] e']| |];
      exact H.
  - destruct (negb _); [exact Hwf|].
    set (n := length (sliderFields line)).
    pose proof (sliderCountRule_length n sio Hwf (sliderFields_nonempty line))
      as Hlen.
    pose proof (sliderCountRule_count n sio) as Hcount.
    destruct (sliderLoop _ _ _ _ _ _) as [[values evs] e] eqn:Hloop.
    destruct (sliderLoop_frame _ _ _ _ _ _ _ _ _ Hloop) as [Hl _].
    assert (H : slidersTracked
                  (withSliders (sliderCountRule n sio)
                     (lastKnownNumSliders (sliderCountRule n sio)) values)).
    { right. simpl. rewrite Hcount, Hl, Hlen. reflexivity. }
    destruct e; exact H.
Qed.

(** A tracked state handles any line without an index out of range; what
    is left to go wrong is the key-input mechanism. *)
Lemma handleLine_exit threshold drv cfg sio line :
  slidersTracked sio -> buttonsTracked sio ->
  (out_exit (handleLine threshold drv cfg sio line) = Returned \/
   exists e,
     out_exit (handleLine threshold drv cfg sio line) = Panicked (PanicErr e)) /\
  (driverWorks drv ->
   out_exit (handleLine threshold drv cfg sio line) = Returned).
Proof.
  intros Hs Hb. destruct (MatchString buttonLinePattern line) eqn:Hm.
  - rewrite handleLine_button by exact Hm.
    destruct (handleButtons_frame drv cfg sio line Hm Hb)
      as (_ & _ & -> & _). split.
    + apply pressLoop_exit.
    + apply pressLoop_works.
  - unfold handleLine. rewrite Hm.
    destruct (negb _); [split; [now left | reflexivity]|].
    set (n := length (sliderFields line)).
    pose proof (sliderCountRule_length n sio Hs (sliderFields_nonempty line))
      as Hlen.
    pose proof (sliderLoop_in_range threshold cfg (sliderFields line) 0
                  (currentSliderPercentValues (sliderCountRule n sio)) [])
      as Hin.
    destruct (sliderLoop _ _ _ _ _ _) as [[values evs] e].
    destruct e as [| |p]; try (split; [now left | reflexivity]).
    exfalso. apply (Hin ltac:(fold n; lia) p). reflexivity.
Qed.

Lemma run_exit threshold inputs : forall sio,
  slidersTracked sio -> buttonsTracked sio ->
  (snd (run threshold inputs sio) = Returned \/
   exists e, snd (run threshold inputs sio) = Panicked (PanicErr e)) /\
  (Forall (fun input =>
             match input with
             | LineRead drv _ _ => driverWorks drv
             | _ => True
             end) inputs ->
   snd (run threshold inputs sio) = Returned).
Proof.
  induction inputs as [|[drv cfg line|host cfg|] inputs IH]; intros sio Hs Hb;
    cbn [run].
  - split; [now left | reflexivity].
  - destruct (handleLine_exit threshold drv cfg sio line Hs Hb) as [Hex Hok].
    pose proof (handleLine_slidersTracked threshold drv cfg sio line Hs) as Hs'.
    pose proof (handleLine_buttonsTracked threshold drv cfg sio line Hb) as Hb'.
    destruct (IH _ Hs' Hb') as [IH1 IH2].
    destruct (out_exit (handleLine threshold drv cfg sio line)) as [|p] eqn:E.
    + split; [exact IH1|]. intros Hall. inversion Hall; subst. auto.
    + split.
      * destruct Hex as [Hex|[e Hex]]; [discriminate|].
        right. exists e. simpl. congruence.
      * intros Hall. inversion Hall; subst.
        match goal with H : driverWorks drv |- _ => specialize (Hok H) end.
        discriminate.
  - destruct (onConfigReloaded_forgets host cfg sio) as (H1 & H2 & _).
    destruct (IH (reload_sio (onConfigReloaded host cfg sio))) as [IH1 IH2];
      [now left | now left |].
    split; [exact IH1|]. intros Hall. inversion Hall; subst. auto.
  - destruct (IH (fst (SubscribeToSliderMoveEvents sio))) as [IH1 IH2];
      [exact Hs | exact Hb |].
    split; [exact IH1|]. intros Hall. inversion Hall; subst. auto.
Qed.

(** X13: from a new [SerialIO], whatever lines are read (valid, torn or
    garbage) and whatever configuration changes and subscriptions come in
    between, no slice is ever indexed out of range: the engine stops only on
    a panic raised by [pressedButton], and with a key-input mechanism that
    works it never stops. *)
Theorem engine_never_indexes_out_of_range threshold inputs :
  (forall index length,
     snd (run threshold inputs NewSerialIO)
     <> Panicked (IndexOutOfRange index length)) /\
  (Forall (fun input =>
             match input with
             | LineRead drv _ _ => driverWorks drv
             | _ => True
             end) inputs ->
   snd (run threshold inputs NewSerialIO) = Returned).
Proof.
  destruct (run_exit threshold inputs NewSerialIO) as [Hex Hok];
    [now left | now left |].
  split; [|exact Hok].
  intros index len E. destruct Hex as [Hex|[e Hex]]; congruence.
Qed.

(** ** The slider grammar *)

Lemma isField_cons c s :
  isField (String c s) = true ->
  isDigit c = true /\ forallb isDigit (list_ascii_of_string s) = true /\
  (String.length s <= 3)%nat.
Proof.
  unfold isField. cbn [list_ascii_of_string forallb String.length].
  rewrite !andb_true_iff, !Nat.leb_le. intros [[[Hc Hs] _] Hl].
  repeat split; auto. lia.
Qed.

Lemma isField_digits f :
  isField f = true -> forallb isDigit (list_ascii_of_string f) = true.
Proof. unfold isField. rewrite !andb_true_iff. tauto. Qed.

Lemma Lang_field s : Lang (Repeat1 3 Digit) s -> isField s = true.
Proof.
  cbn [Repeat1]. unfold Quest. intros H.
  repeat match goal with
         | H : Lang (Concat _ _) _ |- _ => inversion H; subst; clear H
         | H : Lang (Alternate _ _) _ |- _ => inversion H; subst; clear H
         | H : Lang EmptyMatch _ |- _ => inversion H; subst; clear H
         | H : Lang Digit _ |- _ => inversion H; subst; clear H
         end;
    cbv [String.append isField list_ascii_of_string forallb String.length];
    repeat match goal with H : isDigit _ = true |- _ => rewrite H; clear H end;
    reflexivity.
Qed.

Lemma field_Lang s : isField s = true -> Lang (Repeat1 3 Digit) s.
Proof.
  intros H. cbn [Repeat1]. unfold Quest.
  destruct s as [|c1 s]; [discriminate H|].
  apply isField_cons in H as (H1 & Hs & Hl).
  change (String c1 s) with (String c1 EmptyString +:+ s).
  constructor; [now constructor|].
  destruct s as [|c2 s]; [apply LAltL; constructor|apply LAltR].
  cbn [list_ascii_of_string forallb String.length] in Hs, Hl.
  apply andb_true_iff in Hs as [H2 Hs].
  change (String c2 s) with (String c2 EmptyString +:+ s).
  constructor; [now constructor|].
  destruct s as [|c3 s]; [apply LAltL; constructor|apply LAltR].
  cbn [list_ascii_of_string forallb String.length] in Hs, Hl.
  apply andb_true_iff in Hs as [H3 Hs].
  change (String c3 s) with (String c3 EmptyString +:+ s).
  constructor; [now constructor|].
  destruct s as [|c4 s]; [apply LAltL; constructor|apply LAltR].
  cbn [list_ascii_of_string forallb String.length] in Hs, Hl.
  apply andb_true_iff in Hs as [H4 Hs].
  destruct s; [now constructor | simpl in Hl; lia].
Qed.

Lemma Lang_pipes s :
  Lang (Star (Concat (Literal "|") (Repeat1 3 Digit))) s ->
  exists fs, Forall (fun f => isField f = true) fs /\ s = pipes fs.
Proof.
  intros H.
  remember (Star (Concat (Literal "|") (Repeat1 3 Digit))) as r eqn:Er.
  induction H; try discriminate Er.
  - exists []. split; [constructor | reflexivity].
  - injection Er as ->. clear IHLang1.
    destruct (IHLang2 eq_refl) as (fs & Hfs & ->).
    inversion H; subst.
    match goal with H : Lang (Literal _) _ |- _ => inversion H; subst end.
    match goal with
    | H : Lang (Concat Digit _) ?f |- _ =>
        pose proof (Lang_field f H) as Hf; exists (f :: fs)
    end.
    split; [constructor; assumption | reflexivity].
Qed.

Lemma pipes_Lang fs :
  Forall (fun f => isField f = true) fs ->
  Lang (Star (Concat (Literal "|") (Repeat1 3 Digit))) (pipes fs).
Proof.
  induction 1 as [|f fs Hf _ IH]; [constructor|].
  change (pipes (f :: fs)) with ((String "|" EmptyString +:+ f) +:+ pipes fs).
  constructor; [|exact IH]. constructor; [constructor|].
  now apply field_Lang.
Qed.

Lemma prefix_pipe_digit c s :
  isDigit c = true -> String.prefix "|" (String c s) = false.
Proof.
  destruct c as [[] [] [] [] [] [] [] []]; intros H;
    try discriminate H; reflexivity.
Qed.

Lemma prefix_pipe_pipe s : String.prefix "|" (String "|" s) = true.
Proof. destruct s; reflexivity. Qed.

Lemma Split_pipes fs : forall f0,
  forallb isDigit (list_ascii_of_string f0) = true ->
  Forall (fun f => forallb isDigit (list_ascii_of_string f) = true) fs ->
  Split (f0 +:+ pipes fs) "|" = f0 :: fs.
Proof.
  unfold Split.
  induction fs as [|f fs IH]; intros f0 H0 Hfs.
  - cbn [pipes]. rewrite append_nil_r.
    induction f0 as [|c f0 IH0]; [reflexivity|].
    cbn [list_ascii_of_string forallb] in H0.
    apply andb_true_iff in H0 as [Hc H0].
    rewrite splitFrom_step, (prefix_pipe_digit c _ Hc), (IH0 H0).
    reflexivity.
  - inversion Hfs as [|? ? Hf Hrest]; subst.
    induction f0 as [|c f0 IH0].
    + rewrite append_nil_l. cbn [pipes]. rewrite splitFrom_step.
      rewrite prefix_pipe_pipe.
      change (String.length "|" - 1)%nat with 0%nat.
      now rewrite (IH f Hf Hrest).
    + cbn [list_ascii_of_string forallb] in H0.
      apply andb_true_iff in H0 as [Hc H0].
      rewrite append_cons, splitFrom_step, (prefix_pipe_digit c _ Hc).
      now rewrite (IH0 H0).
Qed.

Lemma digitVal_isDigit c :
  isDigit c = true -> exists d, digitVal c = Some d /\ 0 <= d <= 9.
Proof.
  destruct c as [[] [] [] [] [] [] [] []]; intros H; try discriminate H;
    eexists; (split; [vm_compute; reflexivity | lia]).
Qed.

Lemma parseDigits_digits s : forall acc,
  forallb isDigit (list_ascii_of_string s) = true -> 0 <= acc ->
  exists v, parseDigits s acc = Some v /\
            acc * 10 ^ Z.of_nat (String.length s) <= v
            < (acc + 1) * 10 ^ Z.of_nat (String.length s).
Proof.
  induction s as [|c s IH]; intros acc Hs Hacc.
  - exists acc. split; [reflexivity|]. simpl. lia.
  - cbn [list_ascii_of_string forallb] in Hs.
    apply andb_true_iff in Hs as [Hc Hs].
    destruct (digitVal_isDigit c Hc) as (d & Hd & Hr).
    cbn [parseDigits]. rewrite Hd.
    destruct (IH (acc * 10 + d) Hs ltac:(lia)) as (v & Hv & Hb).
    exists v. split; [exact Hv|].
    cbn [String.length]. rewrite Nat2Z.inj_succ, Z.pow_succ_r by lia.
    set (p := 10 ^ Z.of_nat (String.length s)) in *.
    assert (0 < p) by (apply Z.pow_pos_nonneg; lia). nia.
Qed.

Lemma Atoi_digit_first c s :
  isDigit c = true ->
  Atoi (String c s) =
  match parseDigits (String c s) 0 with
  | None => (0, Some ErrSyntax)
  | Some v =>
      if v <? minInt then (minInt, Some ErrRange)
      else if maxInt <? v then (maxInt, Some ErrRange)
      else (v, None)
  end.
Proof.
  destruct c as [[] [] [] [] [] [] [] []]; intros H;
    try discriminate H; reflexivity.
Qed.

Lemma Atoi_field f :
  isField f = true -> exists v, Atoi f = (v, None) /\ 0 <= v <= 9999.
Proof.
  intros H. destruct f as [|c s]; [discriminate H|].
  pose proof (isField_digits _ H) as Hd.
  destruct (isField_cons c s H) as (Hc & _ & Hl).
  rewrite (Atoi_digit_first c s Hc).
  destruct (parseDigits_digits (String c s) 0 Hd ltac:(lia)) as (v & -> & Hb).
  assert (Hp : 10 ^ Z.of_nat (String.length (String c s)) <= 10 ^ 4).
  { apply Z.pow_le_mono_r; [lia|]. cbn [String.length]. lia. }
  exists v. unfold minInt, maxInt.
  destruct (Z.ltb_spec v (- 2 ^ 63)); [lia|].
  destruct (Z.ltb_spec (2 ^ 63 - 1) v); [lia|].
  split; [reflexivity | lia].
Qed.

(** A line the slider grammar accepts, its fields and its numbers. *)
Lemma sliderLine_fields line :
  MatchString expectedLinePattern line = true ->
  exists f0 fs,
    isField f0 = true /\ Forall (fun f => isField f = true) fs /\
    line = (f0 +:+ pipes fs) +:+ CRLF /\
    sliderFields line = f0 :: fs /\
    Forall (fun number => 0 <= number <= 9999) (numbersOf (sliderFields line)).
Proof.
  intros H. apply RegexpFacts.MatchString_Lang in H.
  unfold expectedLinePattern in H.
  inversion H as [| | |r1 r2 f0 tail Hf0 Htail| | | |]; subst; clear H.
  inversion Htail as [| | |r1 r2 ps crlf Hps Hcrlf| | | |]; subst; clear Htail.
  apply Lang_field in Hf0. apply Lang_pipes in Hps as (fs & Hfs & ->).
  inversion Hcrlf as [| | |r1 r2 cr lf Hcr Hlf| | | |]; subst; clear Hcrlf.
  inversion Hcr; subst. inversion Hlf; subst.
  change (String "013" EmptyString +:+ String "010" EmptyString) with CRLF.
  rewrite <- append_assoc.
  assert (Hfields : sliderFields ((f0 +:+ pipes fs) +:+ CRLF) = f0 :: fs).
  { unfold sliderFields. rewrite TrimSuffix_append.
    apply Split_pipes; [now apply isField_digits|].
    eapply Forall_impl; [exact Hfs|]. apply isField_digits. }
  exists f0, fs. repeat split; try assumption.
  rewrite Hfields. unfold numbersOf.
  apply Forall_map. constructor.
  - destruct (Atoi_field f0 Hf0) as (v & -> & Hv). exact Hv.
  - eapply Forall_impl; [exact Hfs|]. intros f Hf.
    destruct (Atoi_field f Hf) as (v & -> & Hv). exact Hv.
Qed.

Lemma sliderLine_accepted f0 fs :
  isField f0 = true -> Forall (fun f => isField f = true) fs ->
  MatchString expectedLinePattern ((f0 +:+ pipes fs) +:+ CRLF) = true.
Proof.
  intros H0 Hfs. apply RegexpFacts.MatchString_Lang.
  rewrite append_assoc. unfold expectedLinePattern.
  constructor; [now apply field_Lang|].
  constructor; [now apply pipes_Lang|].
  change CRLF with (String "013" EmptyString +:+ String "010" EmptyString).
  constructor; constructor.
Qed.

(** X14: a line is recognized as a slider frame exactly when it is
    [f0|f1|...|fn] and CRLF with every field one to four decimal digits; its
    fields are then those, at least one, and each parses to an integer from 0
    to 9999, so every channel but the first (which the guard holds to 1023)
    may carry a number up to 9999. *)
Theorem expectedLinePattern_fields line :
  (MatchString expectedLinePattern line = true <->
   exists f0 fs,
     isField f0 = true /\ Forall (fun f => isField f = true) fs /\
     line = (f0 +:+ pipes fs) +:+ CRLF /\
     sliderFields line = f0 :: fs) /\
  (MatchString expectedLinePattern line = true ->
   Forall (fun number => 0 <= number <= 9999) (numbersOf (sliderFields line))).
Proof.
  split; [split|].
  - intros H. destruct (sliderLine_fields line H) as (f0 & fs & H1 & H2 & H3 & H4 & _).
    exists f0, fs. auto.
  - intros (f0 & fs & H0 & Hfs & -> & _). now apply sliderLine_accepted.
  - intros H. destruct (sliderLine_fields line H) as (f0 & fs & _ & _ & _ & _ & Hn).
    exact Hn.
Qed.

Lemma HasSuffix_append body suffix : HasSuffix (body +:+ suffix) suffix = true.
Proof. unfold HasSuffix. now rewrite cutSuffix_append. Qed.

Lemma accepted_lines_end_with_CRLF line :
  MatchString buttonLinePattern line = true \/
  MatchString expectedLinePattern line = true ->
  HasSuffix line CRLF = true.
Proof.
  intros [H|H].
  - destruct (buttonLinePattern_shape line H) as (d & ds & _ & _ & ->).
    unfold buttonLineOf.
    replace (String "~" (String d (tildes ds +:+ String "~" CRLF)))
      with ((String "~" (String d (tildes ds)) +:+ "~") +:+ CRLF).
    + apply HasSuffix_append.
    + rewrite !append_cons. do 2 f_equal. now rewrite append_assoc.
  - destruct (sliderLine_fields line H) as (f0 & fs & _ & _ & -> & _).
    apply HasSuffix_append.
Qed.

(** X15: a line that does not end with a carriage return and a line feed
    is dropped whatever it holds, a well-formed frame ended by a bare line
    feed included: no event, no trigger call, the tracker untouched. *)
Theorem line_without_CRLF_is_dropped threshold drv cfg sio line :
  HasSuffix line CRLF = false ->
  let r := handleLine threshold drv cfg sio line in
  out_sio r = sio /\ out_moveEvents r = [] /\ out_sent r = [] /\
  out_buttonEvents r = [] /\ out_pressed r = [] /\ out_launched r = [] /\
  out_exit r = Returned.
Proof.
  intros Hno r. subst r. unfold handleLine.
  destruct (MatchString buttonLinePattern line) eqn:Hb.
  - rewrite accepted_lines_end_with_CRLF in Hno by now left. discriminate.
  - destruct (MatchString expectedLinePattern line) eqn:Hs.
    + rewrite accepted_lines_end_with_CRLF in Hno by now right. discriminate.
    + simpl. repeat split.
Qed.

Lemma line_without_CRLF_is_dropped_witness :
  let bare := String.append "512|1023" (String LF EmptyString) in
  let r := handleLine exampleThreshold workingDriver exampleConfig
             establishedSerialIO bare in
  isLine bare /\
  out_sio r = establishedSerialIO /\ out_moveEvents r = [] /\ out_sent r = [] /\
  out_buttonEvents r = [] /\ out_pressed r = [] /\ out_launched r = [] /\
  out_exit r = Returned.
Proof.
  intros bare r. split.
  - exists "512|1023". split; [reflexivity|].
    simpl. intros H.
    repeat (destruct H as [H|H]; [discriminate H|]). exact H.
  - exact (line_without_CRLF_is_dropped exampleThreshold workingDriver
             exampleConfig establishedSerialIO bare eq_refl).
Defined.

Lemma grammars_disjoint_aux line :
  MatchString expectedLinePattern line = true ->
  MatchString buttonLinePattern line = false.
Proof.
  intros Hs. destruct (MatchString buttonLinePattern line) eqn:Hb; [|reflexivity].
  exfalso.
  destruct (buttonLinePattern_shape line Hb) as (d & ds & _ & _ & ->).
  destruct (sliderLine_fields _ Hs) as (f0 & fs & H0 & _ & E & _).
  destruct f0 as [|c f0]; [discriminate H0|].
  apply isField_cons in H0 as [Hc _].
  unfold buttonLineOf in E. rewrite !append_cons in E.
  injection E as <- _. discriminate Hc.
Qed.

(** X16: no line is both a button frame and a slider frame (a button line
    starts with a tilde, a slider line with a digit), so a line is handled
    the same whichever pattern is tried first. *)
Theorem grammars_are_disjoint line :
  MatchString buttonLinePattern line && MatchString expectedLinePattern line
  = false.
Proof.
  destruct (MatchString expectedLinePattern line) eqn:Hs;
    [|apply andb_false_r].
  now rewrite (grammars_disjoint_aux line Hs).
Qed.

(** ** The lines the firmware prints *)

Lemma reading_field n :
  0 <= n <= 1023 ->
  isField (firmware.StringOfInt n) = true /\
  Atoi (firmware.StringOfInt n) = (n, None).
Proof.
  intros Hn.
  assert (Hall :
    forallb (fun k =>
               let s := firmware.StringOfInt (Z.of_nat k) in
               isField s
               && (fst (Atoi s) =? Z.of_nat k)
               && match snd (Atoi s) with None => true | Some _ => false end)
      (seq 0 1024) = true) by (vm_compute; reflexivity).
  rewrite forallb_forall in Hall.
  specialize (Hall (Z.to_nat n)). rewrite Z2Nat.id in Hall by lia.
  cbn zeta in Hall.
  destruct (Atoi (firmware.StringOfInt n)) as [v [e|]];
    cbn [fst snd] in Hall;
    rewrite ?andb_false_r in Hall;
    (lapply Hall; [|apply in_seq; lia]); try discriminate.
  rewrite !andb_true_iff, Z.eqb_eq. intros [[Hf ->] _]. now split.
Qed.

Lemma builtSliderString_pipes v rest :
  firmware.builtSliderString (v :: rest)
  = firmware.StringOfInt v +:+ pipes (map firmware.StringOfInt rest).
Proof.
  revert v. induction rest as [|w rest IH]; intros v.
  - cbn [firmware.builtSliderString map pipes]. now rewrite append_nil_r.
  - change (firmware.builtSliderString (v :: w :: rest))
      with (firmware.StringOfInt v
            +:+ String "|" (firmware.builtSliderString (w :: rest))).
    now rewrite IH.
Qed.

Lemma buttonsTail_tildes pins :
  String "~" (firmware.buttonsTail (map firmware.buttonValue pins)) +:+ CRLF
  = tildes (map (fun pin : bool => if pin then "0" else "1")%char pins)
    +:+ String "~" CRLF.
Proof.
  induction pins as [|pin pins IH]; [reflexivity|].
  cbn [map firmware.buttonsTail tildes].
  assert (E : firmware.StringOfInt (firmware.buttonValue pin)
              = single (if pin then "0" else "1")%char)
    by (destruct pin; reflexivity).
  rewrite E. unfold single. rewrite !append_cons, append_nil_l.
  now rewrite IH.
Qed.

Lemma builtButtonString_buttonLineOf pin pins :
  firmware.println
    (firmware.builtButtonString (map firmware.buttonValue (pin :: pins)))
  = buttonLineOf (if pin then "0" else "1")%char
      (map (fun pin : bool => if pin then "0" else "1")%char pins).
Proof.
  unfold firmware.println, firmware.builtButtonString, buttonLineOf.
  cbn [map firmware.buttonsTail].
  assert (E : firmware.StringOfInt (firmware.buttonValue pin)
              = single (if pin then "0" else "1")%char)
    by (destruct pin; reflexivity).
  rewrite E. unfold single. rewrite !append_cons, append_nil_l.
  do 2 f_equal. apply buttonsTail_tildes.
Qed.

(** X17: what the firmware prints in one pass of its loop is what the
    host reads back: for at least one slider, every reading within 0..1023,
    the first line is a slider frame and no button frame, and its numbers
    are the readings; for at least one button, the second line is a button
    frame whose numbers are 1 for a pressed button (pin low) and 0 for a
    released one. *)
Theorem firmware_lines_parse_back reading readings pin pins :
  Forall (fun v => 0 <= v <= 1023) (reading :: readings) ->
  let buttonsValues := map firmware.buttonValue (pin :: pins) in
  exists sliderLine buttonLine,
    firmware.sendSliderValues (reading :: readings) buttonsValues
      = [sliderLine; buttonLine] /\
    MatchString buttonLinePattern sliderLine = false /\
    MatchString expectedLinePattern sliderLine = true /\
    numbersOf (sliderFields sliderLine) = reading :: readings /\
    MatchString buttonLinePattern buttonLine = true /\
    numbersOf (buttonFields buttonLine) = buttonsValues.
Proof.
  intros Hr buttonsValues. eexists _, _. split; [reflexivity|].
  set (fields := map firmware.StringOfInt (reading :: readings)).
  assert (Hfields : Forall (fun f => isField f = true) fields).
  { unfold fields. apply Forall_map. eapply Forall_impl; [exact Hr|].
    intros v Hv. now apply reading_field. }
  assert (Hnumbers : numbersOf fields = reading :: readings).
  { unfold fields, numbersOf. rewrite map_map.
    clear Hfields fields. induction Hr as [|v vs Hv _ IH]; [reflexivity|].
    cbn [map]. rewrite IH. f_equal.
    now destruct (reading_field v Hv) as [_ ->]. }
  assert (Hline : firmware.println
                    (firmware.builtSliderString (reading :: readings))
                  = (firmware.StringOfInt reading
                     +:+ pipes (map firmware.StringOfInt readings)) +:+ CRLF).
  { unfold firmware.println. now rewrite builtSliderString_pipes. }
  unfold fields in Hfields. cbn [map] in Hfields.
  inversion Hfields as [|? ? Hf0 Hfs]; subst.
  assert (Hs : MatchString expectedLinePattern
                 (firmware.println
                    (firmware.builtSliderString (reading :: readings))) = true)
    by (rewrite Hline; now apply sliderLine_accepted).
  pose proof (builtButtonString_buttonLineOf pin pins) as Hbline.
  assert (Hd : isDigit (if pin then "0" else "1")%char = true)
    by (now destruct pin).
  assert (Hds : Forall (fun d => isDigit d = true)
                  (map (fun pin : bool => if pin then "0" else "1")%char pins)).
  { apply Forall_map, Forall_forall. intros x _. now destruct x. }
  split; [|split; [exact Hs|split; [|split]]].
  - pose proof (grammars_disjoint_aux _ Hs) as H. exact H.
  - rewrite Hline. unfold sliderFields. rewrite TrimSuffix_append.
    rewrite Split_pipes.
    + exact Hnumbers.
    + now apply isField_digits.
    + eapply Forall_impl; [exact Hfs|]. apply isField_digits.
  - fold buttonsValues in Hbline. rewrite Hbline.
    now apply buttonLineOf_accepted.
  - fold buttonsValues in Hbline. rewrite Hbline.
    rewrite buttonFields_buttonLineOf by assumption.
    unfold buttonsValues, numbersOf. cbn [map]. f_equal; [now destruct pin|].
    rewrite !map_map. apply map_ext. now intros [].
Qed.

Lemma firmware_lines_parse_back_witness :
  exists sliderLine buttonLine,
    firmware.sendSliderValues [512; 1023]
      (map firmware.buttonValue [true; false])
      = [sliderLine; buttonLine] /\
    MatchString buttonLinePattern sliderLine = false /\
    MatchString expectedLinePattern sliderLine = true /\
    numbersOf (sliderFields sliderLine) = [512; 1023] /\
    MatchString buttonLinePattern buttonLine = true /\
    numbersOf (buttonFields buttonLine) = [0; 1].
Proof.
  apply (firmware_lines_parse_back 512 [1023] true [false]).
  repeat constructor; lia.
Defined.

(** ** A button frame, twice *)

Lemma edgesFrom_same values : forall idx, edgesFrom idx values values = [].
Proof.
  induction values as [|v values IH]; intros idx; cbn [edgesFrom];
    [reflexivity|].
  now rewrite Z.eqb_refl, IH.
Qed.

(** The whole outcome of [handleButtons] on a line of the button grammar. *)
Lemma handleButtons_outcome drv cfg sio line :
  MatchString buttonLinePattern line = true ->
  buttonsTracked sio ->
  let fields := buttonFields line in
  let rule := buttonCountRule (length fields) sio in
  let events := edgesFrom 0 (currentButtonValues rule) (numbersOf fields) in
  handleButtons drv cfg sio line =
  {| out_sio := withButtons rule (Z.of_nat (length fields)) (numbersOf fields);
     out_moveEvents := []; out_sent := [];
     out_buttonEvents := events;
     out_pressed := fst (fst (pressLoop drv cfg events));
     out_launched := snd (fst (pressLoop drv cfg events));
     out_exit := snd (pressLoop drv cfg events) |}.
Proof.
  intros Hm Hwf fields rule events.
  destruct (buttonLine_fields line Hm) as (d & ds & Hd & Hds & _ & Hf & Hnum).
  assert (Hn : length fields <> 0%nat) by (unfold fields; now rewrite Hf).
  destruct (buttonCountRule_length (length fields) sio Hwf Hn) as [Hlen Hlast].
  fold rule in Hlen, Hlast.
  assert (Hloop : buttonLoop 0 fields (currentButtonValues rule) [] =
                  (numbersOf fields, events, LoopDone)).
  { rewrite buttonLoop_done.
    - unfold events. rewrite drop_0, take_0, drop_ge, app_nil_r; [reflexivity|].
      lia.
    - lia.
    - eapply Forall_impl; [exact Hnum|]. simpl. intros; lia. }
  unfold handleButtons. fold fields. fold rule. rewrite Hloop, Hlast.
  now destruct (pressLoop drv cfg events) as [[pressed launched] e].
Qed.

(** X18: a button frame handled twice in a row: the second time there is
    no event and no call of the action trigger, the handler returns whatever
    the key-input mechanism would do, and the tracker is left as the first
    time left it. So a button held down over many frames is acted on once. *)
Theorem same_button_frame_twice threshold drv drv' cfg cfg' sio line :
  MatchString buttonLinePattern line = true ->
  buttonsTracked sio ->
  let first := handleLine threshold drv cfg sio line in
  let second := handleLine threshold drv' cfg' (out_sio first) line in
  out_buttonEvents second = [] /\ out_pressed second = [] /\
  out_launched second = [] /\ out_exit second = Returned /\
  out_sio second = out_sio first.
Proof.
  intros Hm Hwf first second. subst first second.
  rewrite !(handleLine_button _ _ _ _ _ Hm).
  rewrite (handleButtons_outcome drv cfg sio line Hm Hwf).
  cbn [out_sio].
  set (fields := buttonFields line).
  set (rule := buttonCountRule (length fields) sio).
  set (stored := withButtons rule (Z.of_nat (length fields)) (numbersOf fields)).
  assert (Hwf' : buttonsTracked stored).
  { right. unfold stored, numbersOf. simpl. now rewrite length_map. }
  rewrite (handleButtons_outcome drv' cfg' stored line Hm Hwf').
  fold fields.
  assert (Hrule : buttonCountRule (length fields) stored = stored).
  { unfold buttonCountRule, stored. simpl. now rewrite Z.eqb_refl. }
  rewrite Hrule.
  change (currentButtonValues stored) with (numbersOf fields).
  rewrite !edgesFrom_same.
  cbn [pressLoop fst snd out_buttonEvents out_pressed out_launched out_exit
       out_sio].
  repeat split.
Qed.

Lemma same_button_frame_twice_witness :
  let held := lineOf "~0~1~0~" in
  let first := handleLine exampleThreshold workingDriver exampleConfig
                 establishedSerialIO held in
  let second := handleLine exampleThreshold noInitDriver exampleConfig
                  (out_sio first) held in
  length (out_pressed first) = 1%nat /\
  out_buttonEvents second = [] /\ out_pressed second = [] /\
  out_launched second = [] /\ out_exit second = Returned /\
  out_sio second = out_sio first.
Proof.
  intros held first second. split; [vm_compute; reflexivity|].
  assert (Hwf : buttonsTracked establishedSerialIO) by (right; reflexivity).
  exact (same_button_frame_twice exampleThreshold workingDriver noInitDriver
           exampleConfig exampleConfig establishedSerialIO held eq_refl Hwf).
Defined.

(** ** Delivery to the subscribers *)

Lemma filter_pair_same (c : nat) (moveEvents : list SliderMoveEvent) :
  filter (fun sent : nat * SliderMoveEvent => fst sent = c)
    (map (pair c) moveEvents) = map (pair c) moveEvents.
Proof.
  induction moveEvents as [|e es IHe]; [reflexivity|].
  cbn [map]. rewrite filter_cons_True by reflexivity. now rewrite IHe.
Qed.

Lemma filter_pair_other (c first : nat) (moveEvents : list SliderMoveEvent) :
  first <> c ->
  filter (fun sent : nat * SliderMoveEvent => fst sent = c)
    (map (pair first) moveEvents) = [].
Proof.
  intros Hne. induction moveEvents as [|e es IHe]; [reflexivity|].
  cbn [map]. now rewrite filter_cons_False by (simpl; exact Hne).
Qed.

Lemma deliver_from consumers moveEvents : forall first c,
  filter (fun sent : nat * SliderMoveEvent => fst sent = c)
    (flat_map (fun consumer => map (pair consumer) moveEvents)
       (seq first consumers))
  = if bool_decide (first <= c < first + consumers)%nat
    then map (pair c) moveEvents else [].
Proof.
  induction consumers as [|n IH]; intros first c.
  - cbn [seq flat_map]. rewrite filter_nil.
    rewrite bool_decide_eq_false_2 by lia. reflexivity.
  - cbn [seq flat_map]. rewrite filter_app, IH.
    destruct (decide (first = c)) as [->|Hne].
    + rewrite bool_decide_eq_false_2 by lia.
      rewrite bool_decide_eq_true_2 by lia.
      now rewrite app_nil_r, filter_pair_same.
    + rewrite filter_pair_other by exact Hne. cbn [app].
      destruct (decide (S first <= c < S first + n)%nat).
      * rewrite !bool_decide_eq_true_2 by lia. reflexivity.
      * rewrite !bool_decide_eq_false_2 by lia. reflexivity.
Qed.

Lemma length_deliver_from consumers (moveEvents : list SliderMoveEvent) :
  forall first,
  length (flat_map (fun consumer => map (pair consumer) moveEvents)
            (seq first consumers))
  = (consumers * length moveEvents)%nat.
Proof.
  induction consumers as [|n IH]; intros first; [reflexivity|].
  cbn [seq flat_map]. rewrite length_app, length_map, IH. reflexivity.
Qed.

(** X19: the events of a frame are sent to every subscribed channel and
    to no other: each channel gets them all, once each and in the order of
    the frame, the sends number subscribers times events, and with no
    subscriber nothing is sent. The channel a subscription returns is the
    next one, and it is served from then on like those before it. *)
Theorem every_subscriber_gets_every_event sio moveEvents :
  let consumers := sliderMoveConsumers sio in
  (forall c, (c < consumers)%nat ->
     filter (fun sent : nat * SliderMoveEvent => fst sent = c)
       (deliver consumers moveEvents)
     = map (pair c) moveEvents) /\
  (forall c, (consumers <= c)%nat ->
     filter (fun sent : nat * SliderMoveEvent => fst sent = c)
       (deliver consumers moveEvents) = []) /\
  length (deliver consumers moveEvents)
    = (consumers * length moveEvents)%nat /\
  (consumers = 0%nat -> deliver consumers moveEvents = []) /\
  let subscribed := fst (SubscribeToSliderMoveEvents sio) in
  let channel := snd (SubscribeToSliderMoveEvents sio) in
  channel = consumers /\
  sliderMoveConsumers subscribed = S consumers /\
  filter (fun sent : nat * SliderMoveEvent => fst sent = channel)
    (deliver (sliderMoveConsumers subscribed) moveEvents)
  = map (pair channel) moveEvents.
Proof.
  intros consumers. unfold deliver.
  split; [|split; [|split; [|split]]].
  - intros c Hc. rewrite deliver_from.
    now rewrite bool_decide_eq_true_2 by lia.
  - intros c Hc. rewrite deliver_from.
    now rewrite bool_decide_eq_false_2 by lia.
  - apply length_deliver_from.
  - now intros ->.
  - cbn [SubscribeToSliderMoveEvents fst snd sliderMoveConsumers].
    fold consumers. split; [reflexivity|]. split; [reflexivity|].
    rewrite deliver_from. now rewrite bool_decide_eq_true_2 by lia.
Qed.

(** ** Frames through the reader *)

Lemma In_append c a b :
  In c (list_ascii_of_string (a +:+ b)) <->
  In c (list_ascii_of_string a) \/ In c (list_ascii_of_string b).
Proof.
  induction a as [|x a IH].
  - rewrite append_nil_l. simpl. tauto.
  - rewrite append_cons. simpl. rewrite IH. tauto.
Qed.

Lemma digits_no_LF s :
  forallb isDigit (list_ascii_of_string s) = true ->
  ~ In LF (list_ascii_of_string s).
Proof.
  induction s as [|c s IH]; simpl; [tauto|].
  rewrite andb_true_iff. intros [Hc Hs] [E|E].
  - subst c. discriminate Hc.
  - now apply IH.
Qed.

Lemma pipes_no_LF fs :
  Forall (fun f => isField f = true) fs ->
  ~ In LF (list_ascii_of_string (pipes fs)).
Proof.
  induction 1 as [|f fs Hf _ IH]; simpl; [tauto|].
  rewrite In_append. intros [E|[E|E]].
  - discriminate E.
  - now apply (digits_no_LF f (isField_digits f Hf)).
  - now apply IH.
Qed.

Lemma tildes_no_LF ds :
  Forall (fun d => isDigit d = true) ds ->
  ~ In LF (list_ascii_of_string (tildes ds)).
Proof.
  induction 1 as [|d ds Hd _ IH]; simpl; [tauto|].
  intros [E|[E|E]].
  - discriminate E.
  - subst d. discriminate Hd.
  - now apply IH.
Qed.

Lemma isLine_CRLF body :
  ~ In LF (list_ascii_of_string body) -> isLine (body +:+ CRLF).
Proof.
  intros Hno. exists (body +:+ String "013" EmptyString). split.
  - now rewrite append_assoc.
  - rewrite In_append. simpl. intros [E|[E|[]]]; [now apply Hno|].
    discriminate E.
Qed.

Lemma accepted_isLine line :
  MatchString buttonLinePattern line = true \/
  MatchString expectedLinePattern line = true ->
  isLine line.
Proof.
  intros [H|H].
  - destruct (buttonLinePattern_shape line H) as (d & ds & Hd & Hds & ->).
    unfold buttonLineOf.
    replace (String "~" (String d (tildes ds +:+ String "~" CRLF)))
      with ((String "~" (String d (tildes ds)) +:+ "~") +:+ CRLF).
    2:{ rewrite !append_cons. do 2 f_equal. now rewrite append_assoc. }
    apply isLine_CRLF. rewrite In_append. simpl.
    intros [[E|[E|E]]|[E|[]]]; try discriminate E.
    + subst d. discriminate Hd.
    + now apply (tildes_no_LF ds Hds).
  - destruct (sliderLine_fields line H) as (f0 & fs & H0 & Hfs & -> & _).
    apply isLine_CRLF. rewrite In_append. intros [E|E].
    + now apply (digits_no_LF f0 (isField_digits f0 H0)).
    + now apply (pipes_no_LF fs Hfs).
Qed.

(** X20: frames written one after the other come out of the reader as
    they went in: whatever sequence of lines the two grammars accept is
    sent, and whatever part of a next line has arrived when the read fails,
    the reader delivers exactly those lines, in order. *)
Theorem reader_recovers_frames lines tail :
  Forall (fun line => MatchString buttonLinePattern line = true \/
                      MatchString expectedLinePattern line = true) lines ->
  ~ In LF (list_ascii_of_string tail) ->
  readLine (joinLines lines +:+ tail) = lines.
Proof.
  intros Hlines Htail. apply readLine_joinLines; [|exact Htail].
  eapply Forall_impl; [exact Hlines|]. apply accepted_isLine.
Qed.

Lemma reader_recovers_frames_witness :
  readLine (joinLines [lineOf "512|1023"; lineOf "~0~1~"] +:+ "51")
  = [lineOf "512|1023"; lineOf "~0~1~"].
Proof.
  apply (reader_recovers_frames [lineOf "512|1023"; lineOf "~0~1~"] "51").
  - constructor; [right; vm_compute; reflexivity|].
    constructor; [left; vm_compute; reflexivity|]. constructor.
  - simpl. intros [E|[E|[]]]; discriminate E.
Defined.

(** ** Noise on the line *)

Lemma handleLine_noise threshold drv cfg sio line :
  MatchString buttonLinePattern line || MatchString expectedLinePattern line
    = false ->
  handleLine threshold drv cfg sio line = unchanged sio.
Proof.
  intros H. apply orb_false_iff in H as [Hb Hs].
  unfold handleLine. now rewrite Hb, Hs.
Qed.

(** X21: lines that neither grammar accepts are transparent to the read
    loop: with them or without them among the lines read, the loop ends the
    same way, in the same state, having emitted the same slider events, sent
    the same, and made the same calls of the action trigger. *)
Theorem noise_lines_are_transparent threshold drv cfg lines : forall sio,
  let accepted line :=
    MatchString buttonLinePattern line || MatchString expectedLinePattern line in
  let noisy := readLoop threshold drv cfg sio lines in
  let clean := readLoop threshold drv cfg sio (List.filter accepted lines) in
  fst (fst noisy) = fst (fst clean) /\
  snd noisy = snd clean /\
  flat_map out_moveEvents (snd (fst noisy))
    = flat_map out_moveEvents (snd (fst clean)) /\
  flat_map out_sent (snd (fst noisy)) = flat_map out_sent (snd (fst clean)) /\
  flat_map out_pressed (snd (fst noisy))
    = flat_map out_pressed (snd (fst clean)).
Proof.
  induction lines as [|line lines IH]; intros sio accepted noisy clean;
    subst noisy clean.
  - repeat split.
  - cbn [List.filter]. destruct (accepted line) eqn:Ha.
    + cbn [readLoop].
      destruct (out_exit (handleLine threshold drv cfg sio line));
        [|repeat split].
      specialize (IH (out_sio (handleLine threshold drv cfg sio line))).
      cbv zeta in IH. fold accepted in IH.
      destruct (readLoop threshold drv cfg _ lines) as [[s1 o1] e1].
      destruct (readLoop threshold drv cfg _ (List.filter accepted lines))
        as [[s2 o2] e2].
      cbn [fst snd flat_map] in *.
      destruct IH as (-> & -> & -> & -> & ->). repeat split.
    + cbn [readLoop]. rewrite (handleLine_noise _ _ _ _ _ Ha).
      cbn [out_exit out_sio unchanged].
      specialize (IH sio). cbv zeta in IH. fold accepted in IH.
      destruct (readLoop threshold drv cfg sio lines) as [[s1 o1] e1].
      destruct (readLoop threshold drv cfg sio (List.filter accepted lines))
        as [[s2 o2] e2].
      cbn [fst snd flat_map out_moveEvents out_sent out_pressed unchanged app]
        in *.
      exact IH.
Qed.

Lemma buttonLoop_not_return fields : forall idx values moveEvents,
  idx <> 0%nat ->
  snd (buttonLoop idx fields values moveEvents) <> LoopReturn.
Proof.
  induction fields as [|f fields IH]; intros idx values moveEvents Hidx;
    cbn [buttonLoop]; [discriminate|].
  destruct (Nat.eqb_spec idx 0) as [E|_]; [contradiction|]. cbn [andb].
  destruct (values !! idx) as [previous|]; [|discriminate].
  destruct (negb _); apply IH; lia.
Qed.

Lemma buttonLoop_guard_free fields values moveEvents :
  hd 0 (numbersOf fields) <= 9 ->
  snd (buttonLoop 0 fields values moveEvents) <> LoopReturn.
Proof.
  destruct fields as [|f fields]; cbn [buttonLoop numbersOf map hd];
    [discriminate|].
  intros H.
  replace (9 <? fst (Atoi f)) with false by (symmetry; apply Z.ltb_ge; lia).
  cbn [Nat.eqb andb].
  destruct (values !! 0%nat) as [previous|]; [|discriminate].
  destruct (negb _); apply buttonLoop_not_return; lia.
Qed.

(** X22: the first-value guard of [handleButtons] is never taken for a
    line [handleLine] passes to it; so from a tracker whose remembered count
    is 0 or the number of stored values, a button frame is always stored
    whole (its values and its channel count), also when a call of the action
    trigger panics. *)
Theorem button_frame_is_always_stored threshold drv cfg sio line :
  MatchString buttonLinePattern line = true ->
  (forall values moveEvents,
     snd (buttonLoop 0 (buttonFields line) values moveEvents) <> LoopReturn) /\
  (buttonsTracked sio ->
   let r := handleLine threshold drv cfg sio line in
   currentButtonValues (out_sio r) = numbersOf (buttonFields line) /\
   lastKnownNumButtons (out_sio r) = Z.of_nat (length (buttonFields line)) /\
   buttonsTracked (out_sio r)).
Proof.
  intros Hm. split.
  - intros values moveEvents.
    destruct (buttonLine_fields line Hm) as (d & ds & _ & _ & _ & _ & Hnum).
    apply buttonLoop_guard_free.
    destruct (numbersOf (buttonFields line)) as [|v vs]; cbn [hd]; [lia|].
    inversion Hnum; subst. lia.
  - intros Hwf r. subst r. rewrite (handleLine_button _ _ _ _ _ Hm).
    rewrite (handleButtons_outcome drv cfg sio line Hm Hwf).
    cbn [out_sio currentButtonValues lastKnownNumButtons withButtons].
    split; [reflexivity|]. split; [reflexivity|].
    right. simpl. unfold numbersOf. now rewrite length_map.
Qed.

Lemma button_frame_is_always_stored_witness :
  let r := handleLine exampleThreshold noLaunchDriver exampleConfig
             establishedSerialIO (lineOf "~0~1~1~") in
  out_exit r = Panicked (PanicErr "write failed") /\
  currentButtonValues (out_sio r) = [0; 1; 1] /\
  lastKnownNumButtons (out_sio r) = 3.
Proof.
  intros r. split; [vm_compute; reflexivity|].
  assert (Hwf : buttonsTracked establishedSerialIO) by (right; reflexivity).
  destruct (button_frame_is_always_stored exampleThreshold noLaunchDriver
              exampleConfig establishedSerialIO (lineOf "~0~1~1~") eq_refl)
    as [_ H].
  destruct (H Hwf) as (H1 & H2 & _).
  split; [exact H1 | exact H2].
Defined.

(** ** A torn slider line *)

(** X23: a slider line whose first number exceeds 1023 emits no event,
    sends nothing and returns; what it leaves is the tracker after the
    channel-count rule and nothing more, so it changes nothing at all when it
    has as many fields as the tracker remembers channels, and it never
    touches the button values. *)
Theorem torn_slider_line_emits_nothing threshold drv cfg sio line :
  MatchString buttonLinePattern line = false ->
  MatchString expectedLinePattern line = true ->
  1023 < hd 0 (numbersOf (sliderFields line)) ->
  let r := handleLine threshold drv cfg sio line in
  out_moveEvents r = [] /\ out_sent r = [] /\ out_exit r = Returned /\
  out_sio r = sliderCountRule (length (sliderFields line)) sio /\
  (Z.of_nat (length (sliderFields line)) = lastKnownNumSliders sio ->
   out_sio r = sio) /\
  currentButtonValues (out_sio r) = currentButtonValues sio /\
  lastKnownNumButtons (out_sio r) = lastKnownNumButtons sio.
Proof.
  intros Hb Hs Hgt r.
  destruct (sliderFields line) as [|f rest] eqn:Hf;
    [cbn [numbersOf map hd] in Hgt; lia|].
  cbn [numbersOf map hd] in Hgt.
  destruct (first_value_guard_discards_events threshold drv cfg sio line
              f rest Hb Hs Hf Hgt) as (H1 & H2 & H3 & H4 & H5).
  fold r in H1, H2, H3, H4, H5.
  split; [exact H1|]. split; [exact H2|]. split; [exact H3|].
  split; [exact H4|]. split; [exact H5|].
  rewrite H4. unfold sliderCountRule. now destruct (negb _).
Qed.

Lemma torn_slider_line_emits_nothing_witness :
  let r := handleLine exampleThreshold workingDriver exampleConfig
             establishedSerialIO (lineOf "4558|925") in
  out_moveEvents r = [] /\ out_sent r = [] /\ out_exit r = Returned /\
  out_sio r = establishedSerialIO.
Proof.
  intros r.
  assert (Hgt : 1023 < hd 0 (numbersOf (sliderFields (lineOf "4558|925"))))
    by (vm_compute; reflexivity).
  destruct (torn_slider_line_emits_nothing exampleThreshold workingDriver
              exampleConfig establishedSerialIO (lineOf "4558|925")
              eq_refl eq_refl Hgt) as (H1 & H2 & H3 & _ & H5 & _).
  split; [exact H1|]. split; [exact H2|]. split; [exact H3|].
  apply H5. reflexivity.
Defined.
